(** * CodeReviewAgent: a model of [src/code-review-agent/src/agent.ts]

    The agent is a single-threaded actor holding a JSON state
    ([CodeReviewState]) and a SQLite store with two tables.  Every method
    is embedded as a function on an explicit world (state and tables);
    exceptions are threaded through a small state-and-exception monad in
    which writes made before a [throw] stay in place, as they do in the
    JavaScript code.  What the environment supplies (the inference service,
    [crypto.randomUUID], [Date.now], [CURRENT_TIMESTAMP]) is an explicit
    argument. *)

From Stdlib Require Import String Ascii List Bool Arith ZArith Lia.
From Stdlib Require Import Sorted Permutation.
Import ListNotations.
Open Scope string_scope.

(** ** Strings and the two regular expressions *)

Module Text.

(** ASCII case folding: without the [u] flag, the [i] flag of a JavaScript
    regular expression only identifies a letter of the pattern with its two
    ASCII cases. *)
Definition to_lower (c : ascii) : ascii :=
  let n := nat_of_ascii c in
  if ((65 <=? n) && (n <=? 90))%nat then ascii_of_nat (n + 32) else c.

Fixpoint lowercase (s : string) : string :=
  match s with
  | EmptyString => EmptyString
  | String c t => String (to_lower c) (lowercase t)
  end.

(** [ci_prefix k s]: the lower-case literal [k] matches at the start of [s],
    ignoring case. *)
Fixpoint ci_prefix (k s : string) : bool :=
  match k, s with
  | EmptyString, _ => true
  | String a k', String c s' => Ascii.eqb a (to_lower c) && ci_prefix k' s'
  | String _ _, EmptyString => false
  end.

(** [Array.prototype.join]. *)
Fixpoint join (sep : string) (l : list string) : string :=
  match l with
  | [] => ""
  | [x] => x
  | x :: rest => x ++ sep ++ join sep rest
  end.

(** [contains p s]: [p] occurs in [s] ([String.prototype.includes]). *)
Fixpoint contains (p s : string) : bool :=
  prefix p s ||
  match s with
  | EmptyString => false
  | String _ t => contains p t
  end.

(** The longest prefix of [s] without a period: what [[^.]+] consumes,
    greedily, from [s]. *)
Fixpoint until_dot (s : string) : string :=
  match s with
  | EmptyString => EmptyString
  | String c t => if Ascii.eqb c "."%char then EmptyString else String c (until_dot t)
  end.

Fixpoint has_dot (s : string) : bool :=
  match s with
  | EmptyString => false
  | String c t => Ascii.eqb c "."%char || has_dot t
  end.

(** What follows the literal [p] at the start of [s], if [s] starts
    with it. *)
Fixpoint after_prefix (p s : string) : option string :=
  match p, s with
  | EmptyString, _ => Some s
  | String a p', String c s' => if Ascii.eqb a c then after_prefix p' s' else None
  | String _ _, EmptyString => None
  end.

Section GlobalMatch.

(** [String.prototype.match] with a [g] regular expression whose matches
    are never empty: [match_here s] is the length of the match that
    starts at the head of [s], if there is one.  The scan reports the
    match, resumes right after it, and moves on by one character where
    nothing matches.  [skip] counts the characters of the last match
    still to be passed. *)
Variable match_here : string -> option nat.

Fixpoint match_all (s : string) (skip : nat) : list string :=
  match s with
  | EmptyString => []
  | String _ t =>
      match skip with
      | S n => match_all t n
      | O =>
          match match_here s with
          | Some len => substring 0 len s :: match_all t (len - 1)
          | None => match_all t 0
          end
      end
  end.

(** The method returns [null] rather than an empty array. *)
Definition js_match (s : string) : option (list string) :=
  match match_all s 0 with
  | [] => None
  | ms => Some ms
  end.

End GlobalMatch.

(** [/Issue:([^.]+)/g]: the marker, then at least one character that is not
    a period, up to the next period or the end of the text. *)
Definition issue_here (s : string) : option nat :=
  match after_prefix "Issue:" s with
  | Some rest =>
      match String.length (until_dot rest) with
      | O => None
      | S n => Some (String.length "Issue:" + S n)
      end
  | None => None
  end.

(** [/issue|problem|error|warning|concern/gi]: the alternatives are tried
    in order. *)
Definition keywords : list string :=
  ["issue"; "problem"; "error"; "warning"; "concern"].

Definition keyword_here (s : string) : option nat :=
  option_map String.length (find (fun k => ci_prefix k s) keywords).

End Text.

(** [countIssues(review)], lines 257-260. *)
Definition countIssues (review : string) : nat :=
  match Text.js_match Text.keyword_here review with
  | Some issueMatches => List.length issueMatches
  | None => 0
  end.

(** The array [issuePatterns] of [learnFromReview], line 182:
    [review.match(/Issue:([^.]+)/g) || []]. *)
Definition issuePatterns (review : string) : list string :=
  match Text.js_match Text.issue_here review with
  | Some ms => ms
  | None => []
  end.

(** ** The agent state, lines 4-24 *)

Inductive Strictness := lenient | moderate | strict.

Record Preferences := {
  language : string;
  styleGuide : string;
  strictness : Strictness;
  focusAreas : list string
}.

Record ReviewRecord := {
  id : string;
  code : string;
  review : string;
  timestamp : Z;
  accepted : bool
}.

Record Patterns := {
  commonIssues : list string;
  ignoredRules : list string;
  customRules : list string
}.

Record CodeReviewState := {
  userId : string;
  preferences : Preferences;
  reviewHistory : list ReviewRecord;
  patterns : Patterns
}.

(** [initialState], lines 35-49. *)
Definition initialState : CodeReviewState := {|
  userId := "";
  preferences := {|
    language := "python";
    styleGuide := "PEP8";
    strictness := moderate;
    focusAreas := ["readability"; "performance"; "security"]
  |};
  reviewHistory := [];
  patterns := {| commonIssues := []; ignoredRules := []; customRules := [] |}
|}.

(** [Partial<CodeReviewState['preferences']>]: a key is present or not. *)
Record PartialPreferences := {
  language_opt : option string;
  styleGuide_opt : option string;
  strictness_opt : option Strictness;
  focusAreas_opt : option (list string)
}.

Definition strictness_text (s : Strictness) : string :=
  match s with
  | lenient => "lenient"
  | moderate => "moderate"
  | strict => "strict"
  end.

(** ** The SQLite store, lines 55-76 *)

Module Sql.

(** A row of [review_patterns].  [frequency] and [last_seen] have defaults;
    [user_feedback] is nullable. *)
Record PatternRow := {
  rp_id : Z;
  pattern_type : string;
  pattern : string;
  frequency : Z;
  last_seen : Z;
  user_feedback : option string
}.

(** A row of [code_snippets]. *)
Record SnippetRow := {
  cs_id : Z;
  cs_code : string;
  cs_language : string;
  cs_review : string;
  issues_found : nat;
  cs_timestamp : Z;
  helpful : option bool
}.

(** The table [review_patterns] as it exists in storage.  A table carries
    its constraints: [pattern_unique] tells whether the column [pattern]
    has a UNIQUE index.  [next_id] is the AUTOINCREMENT counter. *)
Record PatternTable := {
  pattern_unique : bool;
  rows : list PatternRow;
  next_id : Z
}.

Record SnippetTable := {
  snippets : list SnippetRow;
  cs_next_id : Z
}.

(** [CREATE TABLE IF NOT EXISTS review_patterns (...)], lines 55-64: a
    table already in storage is kept as it is; the table created here has
    the primary key [id] and no other uniqueness constraint. *)
Definition create_review_patterns (existing : option PatternTable) : PatternTable :=
  match existing with
  | Some t => t
  | None => {| pattern_unique := false; rows := []; next_id := 1 |}
  end.

(** [CREATE TABLE IF NOT EXISTS code_snippets (...)], lines 66-76. *)
Definition create_code_snippets (existing : option SnippetTable) : SnippetTable :=
  match existing with
  | Some t => t
  | None => {| snippets := []; cs_next_id := 1 |}
  end.

Definition has_pattern (p : string) (t : PatternTable) : bool :=
  existsb (fun r => String.eqb (pattern r) p) (rows t).

Definition append_row (r : PatternRow) (t : PatternTable) : PatternTable :=
  {| pattern_unique := pattern_unique t;
     rows := rows t ++ [r];
     next_id := next_id t + 1 |}.

(** [DO UPDATE SET frequency = frequency + 1, last_seen = CURRENT_TIMESTAMP]
    on the row that conflicts.  The sum is the one of SQLite as long as the
    frequency is below [2^63 - 1]; from there on SQLite stores a REAL, which
    is not modelled. *)
Definition bump (p : string) (now : Z) (r : PatternRow) : PatternRow :=
  if String.eqb (pattern r) p then
    {| rp_id := rp_id r; pattern_type := pattern_type r; pattern := pattern r;
       frequency := frequency r + 1; last_seen := now;
       user_feedback := user_feedback r |}
  else r.

(** The message of the engine; the [sql] method of the SDK throws it
    inside an error of its own. *)
Definition no_conflict_target : string :=
  "ON CONFLICT clause does not match any PRIMARY KEY or UNIQUE constraint".

(** The statement of lines 185-191,
    [INSERT INTO review_patterns (pattern_type, pattern)
     VALUES ('detected_issue', ?) ON CONFLICT(pattern) DO UPDATE SET ...].
    SQLite resolves the conflict target against the constraints of the
    table when it prepares the statement: with no PRIMARY KEY or UNIQUE
    index on [pattern] the statement is rejected, whatever the table
    holds.  Otherwise a row with the same [pattern] (of any
    [pattern_type]) is updated, and a new row is inserted when there is
    none; the AUTOINCREMENT counter moves on in both cases, the id being
    taken before the conflict is seen. *)
Definition upsert_detected_issue (p : string) (now : Z) (t : PatternTable)
  : PatternTable + string :=
  if pattern_unique t then
    if has_pattern p t then
      inl {| pattern_unique := pattern_unique t;
             rows := map (bump p now) (rows t);
             next_id := next_id t + 1 |}
    else
      inl (append_row {| rp_id := next_id t; pattern_type := "detected_issue";
                         pattern := p; frequency := 1; last_seen := now;
                         user_feedback := None |} t)
  else
    inr no_conflict_target.

(** The statement of lines 224-227,
    [INSERT INTO review_patterns (pattern_type, pattern, user_feedback)
     VALUES ('user_preference', ?, 'negative')]: a plain insert, which only
    a UNIQUE index on [pattern] can refuse. *)
Definition insert_user_preference (comments : string) (now : Z) (t : PatternTable)
  : PatternTable + string :=
  if pattern_unique t && has_pattern comments t then
    inr "UNIQUE constraint failed: review_patterns.pattern"
  else
    inl (append_row {| rp_id := next_id t; pattern_type := "user_preference";
                       pattern := comments; frequency := 1; last_seen := now;
                       user_feedback := Some "negative" |} t).

(** The statement of lines 155-158. *)
Definition insert_snippet (code language review : string) (issues : nat)
    (ts : Z) (t : SnippetTable) : SnippetTable :=
  {| snippets := snippets t ++
       [{| cs_id := cs_next_id t; cs_code := code; cs_language := language;
           cs_review := review; issues_found := issues; cs_timestamp := ts;
           helpful := None |}];
     cs_next_id := cs_next_id t + 1 |}.

(** [ORDER BY frequency DESC]; rows of equal frequency keep their order of
    insertion. *)
Fixpoint insert_by_frequency (r : PatternRow) (l : list PatternRow) : list PatternRow :=
  match l with
  | [] => [r]
  | x :: t =>
      if (frequency x <=? frequency r)%Z then r :: l
      else x :: insert_by_frequency r t
  end.

Definition order_by_frequency_desc (l : list PatternRow) : list PatternRow :=
  fold_right insert_by_frequency [] l.

(** [SELECT ... FROM review_patterns WHERE pattern_type = ?
     ORDER BY frequency DESC LIMIT 5]. *)
Definition select_top5 (ty : string) (t : PatternTable) : list PatternRow :=
  firstn 5 (order_by_frequency_desc
              (filter (fun r => String.eqb (pattern_type r) ty) (rows t))).

End Sql.

(** ** Worlds and the monad of the methods *)

Record World := {
  state : CodeReviewState;
  review_patterns : Sql.PatternTable;
  code_snippets : Sql.SnippetTable
}.

(** [onStart], lines 51-77, on the storage it finds. *)
Definition onStart (s : CodeReviewState) (rp : option Sql.PatternTable)
    (cs : option Sql.SnippetTable) : World :=
  {| state := s;
     review_patterns := Sql.create_review_patterns rp;
     code_snippets := Sql.create_code_snippets cs |}.

(** A new agent instance: the initial state over empty storage. *)
Definition initial_world : World := onStart initialState None None.

Inductive Outcome (A : Type) :=
| Returned (a : A)
| Thrown (e : string).
Arguments Returned {A} a.
Arguments Thrown {A} e.

(** A computation runs on a world and leaves a world, also when it throws. *)
Definition Run (A : Type) : Type := World -> Outcome A * World.

Definition ret {A} (a : A) : Run A := fun w => (Returned a, w).

Definition throw {A} (e : string) : Run A := fun w => (Thrown e, w).

Definition bind {A B} (m : Run A) (k : A -> Run B) : Run B :=
  fun w =>
    match m w with
    | (Returned a, w') => k a w'
    | (Thrown e, w') => (Thrown e, w')
    end.

(** [try { m } catch (error) { h }]. *)
Definition try_catch {A} (m : Run A) (h : string -> Run A) : Run A :=
  fun w =>
    match m w with
    | (Returned a, w') => (Returned a, w')
    | (Thrown e, w') => h e w'
    end.

Declare Scope run_scope.
Delimit Scope run_scope with run.
Notation "x <- m ;; k" := (bind m (fun x => k))
  (at level 61, m at next level, right associativity) : run_scope.
Notation "m ;;; k" := (bind m (fun _ => k))
  (at level 61, right associativity) : run_scope.
Open Scope run_scope.

Definition this_state : Run CodeReviewState := fun w => (Returned (state w), w).

(** [this.setState(s)]: the snapshot is replaced. *)
Definition setState (s : CodeReviewState) : Run unit :=
  fun w => (Returned tt,
            {| state := s;
               review_patterns := review_patterns w;
               code_snippets := code_snippets w |}).

(** A statement on [review_patterns]; an error of the engine is thrown. *)
Definition sql_patterns (stmt : Sql.PatternTable -> Sql.PatternTable + string) : Run unit :=
  fun w =>
    match stmt (review_patterns w) with
    | inl t => (Returned tt,
                {| state := state w; review_patterns := t;
                   code_snippets := code_snippets w |})
    | inr e => (Thrown e, w)
    end.

Definition sql_snippets (stmt : Sql.SnippetTable -> Sql.SnippetTable) : Run unit :=
  fun w => (Returned tt,
            {| state := state w; review_patterns := review_patterns w;
               code_snippets := stmt (code_snippets w) |}).

Definition sql_select {A} (q : Sql.PatternTable -> A) : Run A :=
  fun w => (Returned (q (review_patterns w)), w).

(** [for (const x of l) { await body(x) }]. *)
Fixpoint for_of {A} (l : list A) (body : A -> Run unit) : Run unit :=
  match l with
  | [] => ret tt
  | x :: rest => body x ;;; for_of rest body
  end.

(** ** The methods of [CodeReviewAgent] *)

(** What one call reads from outside the agent: the inference service
    ([None] when [env.AI.run] rejects, else the text of
    [response.response]), [crypto.randomUUID()], the readings of
    [Date.now()] in the order they are taken, and SQLite's
    [CURRENT_TIMESTAMP]. *)
Record Env := {
  AI_run : string -> option string;
  randomUUID : string;
  now_snippet : Z;
  now_history : Z;
  now_result : Z;
  CURRENT_TIMESTAMP : Z
}.

Definition nl : string := String (ascii_of_nat 10) EmptyString.

(** [language || this.state.preferences.language]: the empty string is
    falsy. *)
Definition or_default (lang : option string) (default : string) : string :=
  match lang with
  | Some l => if String.eqb l "" then default else l
  | None => default
  end.

(** The optional clause of the prompt, line 135. *)
Definition common_issues_clause (texts : list string) : string :=
  match texts with
  | [] => ""
  | _ => nl ++ "Common issues to check: " ++ Text.join ", " texts
  end.

(** [buildReviewPrompt], lines 127-151: the template up to the optional
    clause, the clause, and the rest of the template. *)
Definition prompt_head (st : CodeReviewState) (lang : string) : string :=
  let prefs := preferences st in
  "You are an expert " ++ lang ++ " code reviewer." ++ nl ++
  "Review the following code with " ++ strictness_text (strictness prefs)
    ++ " strictness." ++ nl ++
  "Focus on: " ++ Text.join ", " (focusAreas prefs) ++ "." ++ nl ++
  "Style guide: " ++ styleGuide prefs ++ "." ++ nl ++
  nl.

Definition prompt_tail (c lang : string) : string :=
  nl ++
  nl ++
  "Code to review:" ++ nl ++
  "```" ++ lang ++ nl ++
  c ++ nl ++
  "```" ++ nl ++
  nl ++
  "Provide a structured review with:" ++ nl ++
  "1. Issues found (if any)" ++ nl ++
  "2. Suggestions for improvement" ++ nl ++
  "3. Good practices observed" ++ nl ++
  "4. Security concerns (if any)" ++ nl ++
  nl ++
  "Be constructive and educational.".

Definition buildReviewPrompt (st : CodeReviewState) (c lang : string)
    (found : list Sql.PatternRow) : string :=
  prompt_head st lang ++ common_issues_clause (map Sql.pattern found)
    ++ prompt_tail c lang.

(** [history.unshift(r); if (history.length > 10) history.pop()],
    lines 162-172. *)
Definition unshift_bounded (r : ReviewRecord) (history : list ReviewRecord)
  : list ReviewRecord :=
  let history := r :: history in
  if (10 <? List.length history)%nat then removelast history else history.

Definition with_history (st : CodeReviewState) (h : list ReviewRecord) : CodeReviewState :=
  {| userId := userId st; preferences := preferences st;
     reviewHistory := h; patterns := patterns st |}.

(** [storeReview], lines 153-178. *)
Definition storeReview (env : Env) (c rv lang : string) : Run unit :=
  sql_snippets (Sql.insert_snippet c lang rv (countIssues rv) (now_snippet env)) ;;;
  st <- this_state ;;
  let history :=
    unshift_bounded {| id := randomUUID env; code := c; review := rv;
                       timestamp := now_history env; accepted := false |}
                    (reviewHistory st) in
  setState (with_history st history).

(** [learnFromReview], lines 180-193. *)
Definition learnFromReview (env : Env) (rv : string) : Run unit :=
  for_of (issuePatterns rv)
    (fun p => sql_patterns (Sql.upsert_detected_issue p (CURRENT_TIMESTAMP env))).

Inductive ReviewResult :=
| ReviewOk (rv lang : string) (ts : Z)
| ReviewFailed (error : string) (ts : Z).

Definition success (r : ReviewResult) : bool :=
  match r with
  | ReviewOk _ _ _ => true
  | ReviewFailed _ _ => false
  end.

(** The result of the [catch] block, lines 117-123. *)
Definition failed_result (env : Env) : ReviewResult :=
  ReviewFailed "Failed to generate review" (now_result env).

(** The rows read at lines 84-90. *)
Definition recentPatterns (w : World) : list Sql.PatternRow :=
  Sql.select_top5 "common_issue" (review_patterns w).

(** The prompt a [reviewCode(c, lang)] call sends from the world [w]. *)
Definition review_prompt (w : World) (c : string) (lang : option string) : string :=
  buildReviewPrompt (state w) c
    (or_default lang (language (preferences (state w)))) (recentPatterns w).

(** [env.AI.run(...)] followed by [response.response]. *)
Definition infer (env : Env) (prompt : string) : Run string :=
  match AI_run env prompt with
  | Some rv => ret rv
  | None => throw "inference failed"
  end.

(** [reviewCode], lines 79-125. *)
Definition reviewCode (env : Env) (c : string) (lang : option string)
  : Run ReviewResult :=
  st <- this_state ;;
  let userLanguage := or_default lang (language (preferences st)) in
  found <- sql_select (Sql.select_top5 "common_issue") ;;
  let prompt := buildReviewPrompt st c userLanguage found in
  try_catch
    (rv <- infer env prompt ;;
     storeReview env c rv userLanguage ;;;
     learnFromReview env rv ;;;
     ret (ReviewOk rv userLanguage (now_result env)))
    (fun _ => ret (failed_result env)).

(** [{ ...this.state.preferences, ...preferences }], lines 199-202. *)
Definition spread (base : Preferences) (p : PartialPreferences) : Preferences :=
  {| language := match language_opt p with Some v => v | None => language base end;
     styleGuide := match styleGuide_opt p with Some v => v | None => styleGuide base end;
     strictness := match strictness_opt p with Some v => v | None => strictness base end;
     focusAreas := match focusAreas_opt p with Some v => v | None => focusAreas base end |}.

(** [updatePreferences], lines 195-206; the result is
    [{ success: true, preferences }]. *)
Definition updatePreferences (p : PartialPreferences) : Run (bool * Preferences) :=
  st <- this_state ;;
  setState {| userId := userId st;
              preferences := spread (preferences st) p;
              reviewHistory := reviewHistory st;
              patterns := patterns st |} ;;;
  st' <- this_state ;;
  ret (true, preferences st').

(** [Array.prototype.findIndex]; [None] stands for [-1]. *)
Fixpoint findIndex {A} (p : A -> bool) (l : list A) : option nat :=
  match l with
  | [] => None
  | x :: t => if p x then Some 0%nat else option_map S (findIndex p t)
  end.

Definition with_accepted (r : ReviewRecord) (b : bool) : ReviewRecord :=
  {| id := id r; code := code r; review := review r;
     timestamp := timestamp r; accepted := b |}.

(** [history[i].accepted = b]; outside the array the assignment is a
    [TypeError]. *)
Fixpoint set_accepted (i : nat) (b : bool) (h : list ReviewRecord)
  : option (list ReviewRecord) :=
  match h, i with
  | [], _ => None
  | r :: t, O => Some (with_accepted r b :: t)
  | r :: t, S n => option_map (cons r) (set_accepted n b t)
  end.

(** Truthiness of [comments?: string]. *)
Definition truthy (comments : option string) : bool :=
  match comments with
  | Some c => negb (String.eqb c "")
  | None => false
  end.

(** [provideFeedback], lines 208-232; the result is [{ success: true }]. *)
Definition provideFeedback (now : Z) (reviewId : string) (helpful : bool)
    (comments : option string) : Run bool :=
  st <- this_state ;;
  match findIndex (fun r => String.eqb (id r) reviewId) (reviewHistory st) with
  | Some reviewIndex =>
      match set_accepted reviewIndex helpful (reviewHistory st) with
      | Some history =>
          setState (with_history st history) ;;;
          match comments with
          | Some c =>
              if negb helpful && truthy comments
              then sql_patterns (Sql.insert_user_preference c now)
              else ret tt
          | None => ret tt
          end
      | None => throw "TypeError"
      end
  | None => ret tt
  end ;;;
  ret true.

Record Stats := {
  totalReviews : nat;
  stats_commonIssues : list (string * Z);
  stats_preferences : Preferences;
  recentReviews : nat
}.

(** [getStats], lines 234-255. *)
Definition getStats : Run Stats :=
  fun w =>
    (Returned
       {| totalReviews := List.length (Sql.snippets (code_snippets w));
          stats_commonIssues :=
            map (fun r => (Sql.pattern r, Sql.frequency r))
                (Sql.select_top5 "detected_issue" (review_patterns w));
          stats_preferences := preferences (state w);
          recentReviews := List.length (reviewHistory (state w)) |},
     w).

(** The four callable methods, as the dispatcher of lines 271-306 reaches
    them. *)
Inductive Call :=
| CallReview (env : Env) (c : string) (lang : option string)
| CallUpdatePreferences (p : PartialPreferences)
| CallFeedback (now : Z) (reviewId : string) (helpful : bool) (comments : option string)
| CallGetStats.

(** The world a call leaves. *)
Definition after (k : Call) (w : World) : World :=
  match k with
  | CallReview env c lang => snd (reviewCode env c lang w)
  | CallUpdatePreferences p => snd (updatePreferences p w)
  | CallFeedback now reviewId helpful comments =>
      snd (provideFeedback now reviewId helpful comments w)
  | CallGetStats => snd (getStats w)
  end.

(** A sequence of [reviewCode] calls, one after the other. *)
Record ReviewCall := {
  call_env : Env;
  call_code : string;
  call_language : option string
}.

Fixpoint review_all (calls : list ReviewCall) (w : World)
  : list (Outcome ReviewResult) * World :=
  match calls with
  | [] => ([], w)
  | k :: rest =>
      let (r, w') := reviewCode (call_env k) (call_code k) (call_language k) w in
      let (rs, w'') := review_all rest w' in
      (r :: rs, w'')
  end.

(** ** Vocabulary of the statements *)

(** The number of positions of [s] at which the literal [k] occurs,
    ignoring case. *)
Fixpoint occurrences_of (k s : string) : nat :=
  (if Text.ci_prefix k s then 1 else 0) +
  match s with
  | EmptyString => 0
  | String _ t => occurrences_of k t
  end.

(** The number of case-insensitive occurrences of the keywords in [s]:
    every occurrence of every keyword counts. *)
Definition occurrences (s : string) : nat :=
  list_sum (map (fun k => occurrences_of k s) Text.keywords).

(** The keyword occurrences that start at the head of [s], and those that
    start at one of its first [n] positions. *)
Definition starts (s : string) : nat :=
  list_sum (map (fun k => if Text.ci_prefix k s then 1 else 0) Text.keywords).

Fixpoint starts_within (n : nat) (s : string) : nat :=
  match n, s with
  | S m, String _ t => starts s + starts_within m t
  | _, _ => 0
  end.

(** The occurrences of [issuerror] that start at one of the first [n]
    positions of [s]: there [error] begins on the last letter of
    [issue]. *)
Fixpoint overlaps_within (n : nat) (s : string) : nat :=
  match n, s with
  | S m, String _ t =>
      (if Text.ci_prefix "issuerror" s then 1 else 0) + overlaps_within m t
  | _, _ => 0
  end.

(** The record a [reviewCode] call puts in the history when it answers
    [r]. *)
Definition record_of (k : ReviewCall) (r : Outcome ReviewResult) : list ReviewRecord :=
  match r with
  | Returned (ReviewOk rv _ _) =>
      [{| id := randomUUID (call_env k); code := call_code k; review := rv;
          timestamp := now_history (call_env k); accepted := false |}]
  | _ => []
  end.

(** The records of a run, oldest first. *)
Definition created (calls : list ReviewCall) (results : list (Outcome ReviewResult))
  : list ReviewRecord :=
  flat_map (fun kr => record_of (fst kr) (snd kr)) (combine calls results).

Definition succeeded (r : Outcome ReviewResult) : bool :=
  match r with
  | Returned res => success res
  | Thrown _ => false
  end.

(** Two records that differ at most in [accepted]. *)
Definition same_review (r r' : ReviewRecord) : Prop :=
  id r = id r' /\ code r = code r' /\ review r = review r' /\
  timestamp r = timestamp r'.

(** How one call may change the history: [reviewCode] leaves it or puts a
    record with [accepted = false] in front, dropping the last record when
    ten are held already; [provideFeedback] leaves it or sets [accepted] of
    one record of the given id; the other methods leave it. *)
Definition history_step (k : Call) (h h' : list ReviewRecord) : Prop :=
  match k with
  | CallReview _ _ _ =>
      h' = h \/
      exists r, accepted r = false /\
        ((List.length h < 10 /\ h' = r :: h) \/
         (10 <= List.length h /\ h' = r :: removelast h))
  | CallFeedback _ reviewId helpful _ =>
      Forall2 same_review h h' /\
      (h' = h \/
       exists before r rest,
         h = (before ++ r :: rest)%list /\ id r = reviewId /\
         h' = (before ++ with_accepted r helpful :: rest)%list)
  | CallUpdatePreferences _ | CallGetStats => h' = h
  end.

(** A row that [learnFromReview] may have written: a [detected_issue] whose
    text is one of the matches, starts with the marker and has no period. *)
Definition learned_row (rv : string) (r : Sql.PatternRow) : Prop :=
  Sql.pattern_type r = "detected_issue" /\
  In (Sql.pattern r) (issuePatterns rv) /\
  prefix "Issue:" (Sql.pattern r) = true /\
  Text.has_dot (Sql.pattern r) = false.

(** A row that was there before, up to its counters. *)
Definition kept_row (t : Sql.PatternTable) (r : Sql.PatternRow) : Prop :=
  exists r0, In r0 (Sql.rows t) /\ Sql.rp_id r0 = Sql.rp_id r /\
    Sql.pattern_type r0 = Sql.pattern_type r /\ Sql.pattern r0 = Sql.pattern r.

(** Every row of [t] was in [t0] or was written for a match of [rv]. *)
Definition accounted (rv : string) (t0 t : Sql.PatternTable) : Prop :=
  Forall (fun r => kept_row t0 r \/ learned_row rv r) (Sql.rows t).

(** No row of [review_patterns] has the type that [reviewCode] selects. *)
Definition no_common_issue (w : World) : Prop :=
  Forall (fun r => Sql.pattern_type r <> "common_issue")
         (Sql.rows (review_patterns w)).

(** The row that the insert of lines 224-227 writes under the id [n]. *)
Definition negative_row (n : Z) (c : string) (now : Z) : Sql.PatternRow :=
  {| Sql.rp_id := n; Sql.pattern_type := "user_preference"; Sql.pattern := c;
     Sql.frequency := 1; Sql.last_seen := now;
     Sql.user_feedback := Some "negative" |}.

(** ** Scenarios *)

(** An environment whose inference service answers [txt]. *)
Definition answering (txt uuid : string) (t : Z) : Env :=
  {| AI_run := fun _ => Some txt; randomUUID := uuid;
     now_snippet := t; now_history := t; now_result := t;
     CURRENT_TIMESTAMP := t |}.

(** An environment whose inference service rejects. *)
Definition failing (uuid : string) (t : Z) : Env :=
  {| AI_run := fun _ => None; randomUUID := uuid;
     now_snippet := t; now_history := t; now_result := t;
     CURRENT_TIMESTAMP := t |}.

Definition scenario_text : string :=
  "Issue: missing docstring. Issue: no return type annotation.".

(** Storage in which [review_patterns] already exists with a UNIQUE index
    on [pattern]; [onStart] keeps it. *)
Definition indexed_world : World :=
  onStart initialState
    (Some {| Sql.pattern_unique := true; Sql.rows := []; Sql.next_id := 1 |}) None.

(** Storage in which [review_patterns], as [onStart] creates it, holds one
    [detected_issue] row. *)
Definition world_with_detected_issue : World :=
  {| state := initialState;
     review_patterns :=
       {| Sql.pattern_unique := false;
          Sql.rows := [{| Sql.rp_id := 1; Sql.pattern_type := "detected_issue";
                          Sql.pattern := "Issue: missing docstring";
                          Sql.frequency := 3; Sql.last_seen := 0;
                          Sql.user_feedback := None |}];
          Sql.next_id := 2 |};
     code_snippets := Sql.create_code_snippets None |}.

(** Twelve reviews without an [Issue:] sentence. *)
Definition twelve_calls : list ReviewCall :=
  map (fun n => {| call_env := answering "Looks good" (String (ascii_of_nat (65 + n)) "")
                                 (Z.of_nat n);
                   call_code := "pass"; call_language := None |})
      (seq 0 12).

(** ** Sequences of calls *)

(** The world after the calls [ks], made one after the other. *)
Fixpoint after_all (ks : list Call) (w : World) : World :=
  match ks with
  | [] => w
  | k :: rest => after_all rest (after k w)
  end.

Definition is_review (k : Call) : bool :=
  match k with
  | CallReview _ _ _ => true
  | _ => false
  end.

(** ** The WebSocket handlers, lines 262-311 *)

(** A message after [JSON.parse], with fields of the types that the
    methods declare; only the fields of the case taken are read. *)
Record Data := {
  data_type : string;
  data_code : string;
  data_language : option string;
  data_preferences : PartialPreferences;
  data_reviewId : string;
  data_helpful : bool;
  data_comments : option string
}.

(** What [connection.send(JSON.stringify(...))] is given: the tag and the
    object spread after it. *)
Inductive Outbound :=
| review_result (r : ReviewResult)
| preferences_updated (ok : bool) (prefs : Preferences)
| feedback_received (ok : bool)
| stats_message (s : Stats)
| error_message (message : string) (error : option string).

(** The agent and what the connection has been sent. *)
Record Session := {
  world : World;
  outbox : list Outbound
}.

Definition Handler (A : Type) : Type := Session -> Outcome A * Session.

(** A method of the agent, called from a handler. *)
Definition call {A} (m : Run A) : Handler A :=
  fun s =>
    let (r, w) := m (world s) in
    (r, {| world := w; outbox := outbox s |}).

(** [connection.send(m)]. *)
Definition send (m : Outbound) : Handler unit :=
  fun s => (Returned tt, {| world := world s; outbox := (outbox s ++ [m])%list |}).

Definition and_then {A B} (m : Handler A) (k : A -> Handler B) : Handler B :=
  fun s =>
    match m s with
    | (Returned a, s') => k a s'
    | (Thrown e, s') => (Thrown e, s')
    end.

Definition catching {A} (m : Handler A) (h : string -> Handler A) : Handler A :=
  fun s =>
    match m s with
    | (Returned a, s') => (Returned a, s')
    | (Thrown e, s') => h e s'
    end.

(** [JSON.parse(message)] and the read of [data.type]: the data, or the
    message of the error thrown when the text does not parse or holds no
    object. *)
Definition JSON_parse (message : Data + string) : Handler Data :=
  fun s =>
    match message with
    | inl data => (Returned data, s)
    | inr e => (Thrown e, s)
    end.

(** [onConnect], lines 263-268. *)
Definition onConnect : Handler unit :=
  and_then (call getStats) (fun stats => send (stats_message stats)).

(** [onMessage], lines 271-306.  [CURRENT_TIMESTAMP env] is the time of the
    insert that a [feedback] message may make. *)
Definition onMessage (env : Env) (message : Data + string) : Handler unit :=
  catching
    (and_then (JSON_parse message) (fun data =>
       if String.eqb (data_type data) "review" then
         and_then (call (reviewCode env (data_code data) (data_language data)))
           (fun result => send (review_result result))
       else if String.eqb (data_type data) "update-preferences" then
         and_then (call (updatePreferences (data_preferences data)))
           (fun prefs => send (preferences_updated (fst prefs) (snd prefs)))
       else if String.eqb (data_type data) "feedback" then
         and_then (call (provideFeedback (CURRENT_TIMESTAMP env)
                           (data_reviewId data) (data_helpful data)
                           (data_comments data)))
           (fun feedback => send (feedback_received feedback))
       else if String.eqb (data_type data) "get-stats" then
         and_then (call getStats) (fun stats => send (stats_message stats))
       else
         send (error_message "Unknown command" None)))
    (fun e => send (error_message "Failed to process message" (Some e))).

(** [onClose], lines 309-311, only writes to the log. *)
Definition onClose : Handler unit := fun s => (Returned tt, s).

(** The call that a message of a known type makes. *)
Definition call_of (env : Env) (data : Data) : option Call :=
  if String.eqb (data_type data) "review" then
    Some (CallReview env (data_code data) (data_language data))
  else if String.eqb (data_type data) "update-preferences" then
    Some (CallUpdatePreferences (data_preferences data))
  else if String.eqb (data_type data) "feedback" then
    Some (CallFeedback (CURRENT_TIMESTAMP env) (data_reviewId data)
            (data_helpful data) (data_comments data))
  else if String.eqb (data_type data) "get-stats" then
    Some CallGetStats
  else None.

(** The tag of an outbound message. *)
Definition tag (m : Outbound) : string :=
  match m with
  | review_result _ => "review-result"
  | preferences_updated _ _ => "preferences-updated"
  | feedback_received _ => "feedback-received"
  | stats_message _ => "stats"
  | error_message _ _ => "error"
  end.

(** What happens on a connection, and the handler that the runtime calls
    for it. *)
Inductive Event :=
| Connected
| Received (env : Env) (message : Data + string)
| Closed.

Definition handle (e : Event) : Handler unit :=
  match e with
  | Connected => onConnect
  | Received env message => onMessage env message
  | Closed => onClose
  end.

(** The session after the events [es], one after the other. *)
Fixpoint session (es : list Event) (s : Session) : Session :=
  match es with
  | [] => s
  | e :: rest => session rest (snd (handle e s))
  end.

(** The calls that the messages of [es] make. *)
Definition calls_of (es : list Event) : list Call :=
  flat_map (fun e =>
              match e with
              | Received env (inl data) =>
                  match call_of env data with
                  | Some k => [k]
                  | None => []
                  end
              | _ => []
              end) es.

(** The events that are answered with a message. *)
Definition answered (e : Event) : bool :=
  match e with
  | Closed => false
  | _ => true
  end.

(** The message sent from the catch block of [onMessage]. *)
Definition failure_reply (e : string) : Outbound :=
  error_message "Failed to process message" (Some e).

(** The reply that the outcome of a method gets: its result under the tag
    of the method, or the failure. *)
Definition reply_of {A} (tagged : A -> Outbound) (o : Outcome A) : Outbound :=
  match o with
  | Returned r => tagged r
  | Thrown e => failure_reply e
  end.

(** The reply to a message, given the world it arrives in. *)
Definition reply_to (env : Env) (message : Data + string) (w : World)
    (m : Outbound) : Prop :=
  match message with
  | inr e => m = failure_reply e
  | inl data =>
      match call_of env data with
      | Some (CallReview e c lang) =>
          m = reply_of review_result (fst (reviewCode e c lang w))
      | Some (CallUpdatePreferences p) =>
          m = reply_of (fun r => preferences_updated (fst r) (snd r))
                (fst (updatePreferences p w))
      | Some (CallFeedback now reviewId helpful comments) =>
          m = reply_of feedback_received
                (fst (provideFeedback now reviewId helpful comments w))
      | Some CallGetStats =>
          m = reply_of stats_message (fst (getStats w))
      | None => m = error_message "Unknown command" None
      end
  end.

(** The world that a message leaves. *)
Definition world_after (env : Env) (message : Data + string) (w : World) : World :=
  match message with
  | inl data =>
      match call_of env data with
      | Some k => after k w
      | None => w
      end
  | inr _ => w
  end.

(** ** More vocabulary *)

(** The keys of [q] over those of [p]. *)
Definition overlay (p q : PartialPreferences) : PartialPreferences :=
  {| language_opt := match language_opt q with Some v => Some v | None => language_opt p end;
     styleGuide_opt := match styleGuide_opt q with Some v => Some v | None => styleGuide_opt p end;
     strictness_opt := match strictness_opt q with Some v => Some v | None => strictness_opt p end;
     focusAreas_opt := match focusAreas_opt q with Some v => Some v | None => focusAreas_opt p end |}.

Definition no_keys : PartialPreferences :=
  {| language_opt := None; styleGuide_opt := None;
     strictness_opt := None; focusAreas_opt := None |}.

(** Every record of the history has a snippet with its code and review. *)
Definition persisted (w : World) : Prop :=
  Forall (fun r => exists s, In s (Sql.snippets (code_snippets w)) /\
                     Sql.cs_code s = code r /\ Sql.cs_review s = review r)
         (reviewHistory (state w)).

(** The rows of [getStats] and of the prompt, before the projection. *)
Definition detected (w : World) : list Sql.PatternRow :=
  filter (fun r => String.eqb (Sql.pattern_type r) "detected_issue")
         (Sql.rows (review_patterns w)).

Definition by_frequency_desc (a b : Sql.PatternRow) : Prop :=
  (Sql.frequency b <= Sql.frequency a)%Z.

(** Whether the loop of [learnFromReview] runs to its end on the table of
    [w]: the statement is accepted, or there is nothing to store. *)
Definition learns (w : World) (rv : string) : bool :=
  Sql.pattern_unique (review_patterns w) ||
  match issuePatterns rv with
  | [] => true
  | _ => false
  end.

(** The history after feedback on [reviewId]: the first record with that
    id has [accepted] set. *)
Definition mark (reviewId : string) (b : bool) (h : list ReviewRecord)
  : list ReviewRecord :=
  match findIndex (fun r => String.eqb (id r) reviewId) h with
  | Some i =>
      match set_accepted i b h with
      | Some h' => h'
      | None => h
      end
  | None => h
  end.

(** The occurrences of the literal [k] that start at one of the first [n]
    positions of [s]. *)
Fixpoint occurrences_within (k : string) (n : nat) (s : string) : nat :=
  match n, s with
  | S m, String _ t => (if Text.ci_prefix k s then 1 else 0) + occurrences_within k m t
  | _, _ => 0
  end.

(** A table as [onStart] creates it, holding nothing but the rows of
    negative feedback. *)
Definition only_feedback (t : Sql.PatternTable) : Prop :=
  Sql.pattern_unique t = false /\
  Forall (fun r => Sql.pattern_type r = "user_preference" /\
                   Sql.user_feedback r = Some "negative" /\
                   Sql.frequency r = 1%Z)
         (Sql.rows t).

(** A snippet as [storeReview] writes it: [helpful] unset, and the issue
    count of its review. *)
Definition sound_snippet (s : Sql.SnippetRow) : Prop :=
  Sql.helpful s = None /\ Sql.issues_found s = countIssues (Sql.cs_review s).

(** Reviews whose text has [Issue:] sentences, feedback, a change of
    preferences, a look at the statistics and a review whose inference
    fails. *)
Definition mixed_calls : list Call :=
  (map (fun n => CallReview (answering scenario_text
                               (String (ascii_of_nat (65 + n)) "") (Z.of_nat n))
                   "pass" None)
       (seq 0 11)
   ++ [CallFeedback 20 "K" false (Some "too harsh");
       CallUpdatePreferences
         {| language_opt := None; styleGuide_opt := None;
            strictness_opt := Some strict; focusAreas_opt := None |};
       CallGetStats;
       CallReview (failing "Z" 30) "pass" None])%list.

(** * Properties *)

Example countIssues_scenario :
  countIssues "Issue: missing docstring. Issue: no return type annotation." = 2.
Proof. reflexivity. Qed.

Example issuePatterns_scenario :
  issuePatterns "Issue: missing docstring. Issue: no return type annotation."
  = ["Issue: missing docstring"; "Issue: no return type annotation"].
Proof. reflexivity. Qed.

Example issuePatterns_edge :
  issuePatterns "Issue:. Issue:a Issue:b. issue: c. Issue:" = ["Issue:a Issue:b"].
Proof. reflexivity. Qed.

Example countIssues_overlap : countIssues "ISSUError, Concerning WARNINGS" = 3.
Proof. reflexivity. Qed.


(** ** The global match *)

Lemma match_all_In (match_here : string -> option nat) (s : string) :
  forall skip m, In m (Text.match_all match_here s skip) ->
    exists s' len, match_here s' = Some len /\ m = substring 0 len s'.
Proof.
  induction s as [|c t IH]; intros skip m Hin; simpl in Hin.
  - contradiction.
  - destruct skip as [|n].
    + destruct (match_here (String c t)) as [len|] eqn:E.
      * destruct Hin as [<-|Hin]; [now exists (String c t), len | eauto].
      * eauto.
    + eauto.
Qed.

Lemma issuePatterns_match_all (rv : string) :
  issuePatterns rv = Text.match_all Text.issue_here rv 0.
Proof.
  unfold issuePatterns, Text.js_match.
  now destruct (Text.match_all Text.issue_here rv 0).
Qed.

Lemma countIssues_match_all (rv : string) :
  countIssues rv = List.length (Text.match_all Text.keyword_here rv 0).
Proof.
  unfold countIssues, Text.js_match.
  now destruct (Text.match_all Text.keyword_here rv 0).
Qed.

(** ** The matches of [/Issue:([^.]+)/g] *)

Lemma after_prefix_app (p : string) :
  forall s rest, Text.after_prefix p s = Some rest -> s = p ++ rest.
Proof.
  induction p as [|a p IH]; intros s rest H; simpl in H.
  - now inversion H.
  - destruct s as [|c s]; [discriminate|].
    destruct (Ascii.eqb a c) eqn:E; [|discriminate].
    apply Ascii.eqb_eq in E. subst c. simpl. f_equal. now apply IH.
Qed.

Lemma substring_after (p : string) :
  forall n rest, substring 0 (String.length p + n) (p ++ rest) = p ++ substring 0 n rest.
Proof.
  induction p as [|a p IH]; intros n rest; simpl; [reflexivity | now rewrite IH].
Qed.

Lemma substring_until_dot (s : string) :
  substring 0 (String.length (Text.until_dot s)) s = Text.until_dot s.
Proof.
  induction s as [|c t IH]; simpl; [reflexivity|].
  destruct (Ascii.eqb c "."); simpl; [reflexivity | now rewrite IH].
Qed.

Lemma until_dot_no_dot (s : string) : Text.has_dot (Text.until_dot s) = false.
Proof.
  induction s as [|c t IH]; simpl; [reflexivity|].
  destruct (Ascii.eqb c ".") eqn:E; simpl; [reflexivity | now rewrite E].
Qed.

(** A match is the marker followed by a non-empty text without period. *)
Lemma issue_here_shape (s : string) (len : nat) :
  Text.issue_here s = Some len ->
  exists body, substring 0 len s = "Issue:" ++ body /\
    body <> "" /\ Text.has_dot body = false.
Proof.
  unfold Text.issue_here.
  destruct (Text.after_prefix "Issue:" s) as [rest|] eqn:E; [|discriminate].
  apply after_prefix_app in E. subst s.
  destruct (String.length (Text.until_dot rest)) as [|n] eqn:L; [discriminate|].
  intros H. apply (f_equal (fun o => match o with Some x => x | None => 0 end)) in H.
  subst len. exists (Text.until_dot rest).
  rewrite (substring_after "Issue:" (S n) rest), <- L, substring_until_dot.
  repeat split.
  - intros Hb. now rewrite Hb in L.
  - apply until_dot_no_dot.
Qed.

Lemma issuePatterns_shape (rv p : string) :
  In p (issuePatterns rv) ->
  exists body, p = "Issue:" ++ body /\ body <> "" /\ Text.has_dot body = false.
Proof.
  rewrite issuePatterns_match_all. intros Hin.
  apply match_all_In in Hin. destruct Hin as (s' & len & Hm & ->).
  now apply issue_here_shape.
Qed.

Lemma issuePatterns_marked (rv p : string) :
  In p (issuePatterns rv) -> prefix "Issue:" p = true /\ Text.has_dot p = false.
Proof.
  intros Hin. apply issuePatterns_shape in Hin.
  destruct Hin as (body & -> & _ & Hd). split; [|exact Hd].
  apply prefix_correct. simpl. now destruct body.
Qed.

(** ** The matches of [/issue|problem|error|warning|concern/gi] *)

Lemma ci_prefix_String (a c : ascii) (k t : string) :
  Text.ci_prefix (String a k) (String c t)
  = Ascii.eqb a (Text.to_lower c) && Text.ci_prefix k t.
Proof. reflexivity. Qed.

Lemma ci_prefix_cons (a : ascii) (k s : string) :
  Text.ci_prefix (String a k) s = true ->
  exists c t, s = String c t /\ a = Text.to_lower c /\ Text.ci_prefix k t = true.
Proof.
  destruct s as [|c t]; [discriminate|].
  rewrite ci_prefix_String. intros H. apply andb_prop in H. destruct H as [E H].
  apply Ascii.eqb_eq in E. eauto.
Qed.

Lemma ci_prefix_app (k k' : string) :
  forall s, Text.ci_prefix (k ++ k') s = true -> Text.ci_prefix k s = true.
Proof.
  induction k as [|a k IH]; intros s H; [reflexivity|].
  apply ci_prefix_cons in H. destruct H as (c & t & -> & -> & H).
  rewrite ci_prefix_String, Ascii.eqb_refl. now apply IH.
Qed.

(** Unfolds the tests at the known characters and leaves those on the
    rest of the text. *)
Ltac ci_norm :=
  cbn [starts_within overlaps_within Nat.sub];
  try unfold starts; try unfold Text.keyword_here; try unfold Text.keywords;
  try unfold list_sum;
  cbn [starts_within overlaps_within find map fold_right Nat.sub];
  rewrite ?ci_prefix_String.

Ltac ci_eval :=
  cbn [Ascii.eqb Bool.eqb andb fold_right Nat.add option_map String.length].

(** Splits a text on which a literal matches into its known characters. *)
Ltac ci_split H :=
  repeat match type of H with
  | Text.ci_prefix (String _ _) _ = true =>
      let c := fresh "c" in
      let t := fresh "t" in
      let E := fresh "E" in
      apply ci_prefix_cons in H; destruct H as (c & t & -> & E & H)
  end.

(** Case analysis on the first letter of a text. *)
Ltac by_first_letter c :=
  repeat match goal with
  | |- context [Ascii.eqb ?a (Text.to_lower c)] =>
      let E := fresh "E" in
      destruct (Ascii.eqb a (Text.to_lower c)) eqn:E;
      [apply Ascii.eqb_eq in E; try rewrite <- E; ci_eval | cbn [andb]]
  end.

Lemma starts_keyword_here (s : string) :
  starts s = match Text.keyword_here s with Some _ => 1 | None => 0 end.
Proof.
  destruct s as [|c t]; [reflexivity|].
  ci_norm.
  by_first_letter c;
    repeat match goal with
    | |- context [Text.ci_prefix ?k t] => destruct (Text.ci_prefix k t)
    end; reflexivity.
Qed.

Lemma occurrences_cons (c : ascii) (t : string) :
  occurrences (String c t) = starts (String c t) + occurrences t.
Proof.
  unfold occurrences, starts, Text.keywords, list_sum.
  cbn [map fold_right occurrences_of]. lia.
Qed.

Lemma keyword_inside (c : ascii) (t : string) (len : nat) :
  Text.keyword_here (String c t) = Some len ->
  overlaps_within (len - 1) t = 0 /\
  starts_within (len - 1) t =
    if Text.ci_prefix "issuerror" (String c t) then 1 else 0.
Proof.
  ci_norm.
  by_first_letter c.
  all: try discriminate.
  all: match goal with
       | |- option_map _ (if Text.ci_prefix ?k ?t then _ else _) = _ -> _ =>
           let H := fresh "H" in
           destruct (Text.ci_prefix k t) eqn:H; [|discriminate];
           ci_split H
       end.
  all: intros Hlen; apply (f_equal (fun o => match o with Some x => x | None => 0 end)) in Hlen;
       cbn in Hlen; subst len.
  all: ci_norm;
       repeat match goal with
              | E : _ = Text.to_lower ?c |- _ => try rewrite <- E; clear E
              end;
       ci_eval;
       repeat match goal with
              | |- context [Text.ci_prefix ?k ?s] => destruct (Text.ci_prefix k s)
              end;
       split; reflexivity.
Qed.

(** The count of matches, the occurrences passed over inside a match and
    the overlaps add up to the occurrences. *)
Lemma match_all_keywords (s : string) :
  forall n, overlaps_within n s = 0 ->
    List.length (Text.match_all Text.keyword_here s n)
    + occurrences_of "issuerror" s + starts_within n s
    = occurrences s.
Proof.
  induction s as [|c t IH]; intros n Hn.
  - destruct n; reflexivity.
  - rewrite occurrences_cons.
    cbn [Text.match_all occurrences_of].
    destruct n as [|m].
    + cbn [starts_within]. rewrite starts_keyword_here.
      destruct (Text.keyword_here (String c t)) as [len|] eqn:K.
      * destruct (keyword_inside c t len K) as [Ho Hs].
        specialize (IH (len - 1) Ho).
        cbn [List.length]. lia.
      * specialize (IH 0 eq_refl). cbn [starts_within] in IH.
        assert (Text.ci_prefix "issuerror" (String c t) = false) as ->.
        { destruct (Text.ci_prefix "issuerror" (String c t)) eqn:E; [|reflexivity].
          exfalso. revert K. unfold Text.keyword_here, Text.keywords.
          cbn [find].
          now rewrite (ci_prefix_app "issue" "rror" _ E). }
        lia.
    + cbn [overlaps_within] in Hn. cbn [starts_within].
      assert (overlaps_within m t = 0) as Hm by lia.
      specialize (IH m Hm).
      destruct (Text.ci_prefix "issuerror" (String c t)); [discriminate|]. lia.
Qed.

Lemma countIssues_occurrences (rv : string) :
  countIssues rv + occurrences_of "issuerror" rv = occurrences rv.
Proof.
  rewrite countIssues_match_all, <- (match_all_keywords rv 0 eq_refl).
  destruct rv; cbn [starts_within]; lia.
Qed.

(** ** How the methods run *)

Lemma storeReview_run (env : Env) (c rv lang : string) (w : World) :
  storeReview env c rv lang w =
  (Returned tt,
   {| state :=
        with_history (state w)
          (unshift_bounded
             {| id := randomUUID env; code := c; review := rv;
                timestamp := now_history env; accepted := false |}
             (reviewHistory (state w)));
      review_patterns := review_patterns w;
      code_snippets :=
        Sql.insert_snippet c lang rv (countIssues rv) (now_snippet env)
          (code_snippets w) |}).
Proof. reflexivity. Qed.

(** The statements of a loop over [review_patterns] leave the state and the
    snippets alone. *)
Lemma for_of_patterns_frame (stmt : string -> Sql.PatternTable -> Sql.PatternTable + string)
    (l : list string) :
  forall w, let w' := snd (for_of l (fun p => sql_patterns (stmt p)) w) in
    state w' = state w /\ code_snippets w' = code_snippets w.
Proof.
  induction l as [|p l IH]; intros w; cbn.
  - now split.
  - unfold bind, sql_patterns.
    destruct (stmt p (review_patterns w)) as [t|e]; cbn; [|now split].
    exact (IH {| state := state w; review_patterns := t;
                 code_snippets := code_snippets w |}).
Qed.

Lemma learnFromReview_frame (env : Env) (rv : string) (w : World) :
  state (snd (learnFromReview env rv w)) = state w /\
  code_snippets (snd (learnFromReview env rv w)) = code_snippets w.
Proof. apply for_of_patterns_frame. Qed.

Lemma reviewCode_run (env : Env) (c : string) (lang : option string) (w : World) :
  reviewCode env c lang w =
  match AI_run env (review_prompt w c lang) with
  | None => (Returned (failed_result env), w)
  | Some rv =>
      let userLanguage := or_default lang (language (preferences (state w))) in
      match learnFromReview env rv (snd (storeReview env c rv userLanguage w)) with
      | (Returned _, w') => (Returned (ReviewOk rv userLanguage (now_result env)), w')
      | (Thrown _, w') => (Returned (failed_result env), w')
      end
  end.
Proof.
  unfold reviewCode, review_prompt, recentPatterns, bind, try_catch, infer,
    this_state, sql_select, ret, throw.
  destruct (AI_run env _) as [rv|]; [|reflexivity].
  rewrite storeReview_run. cbn [snd].
  destruct (learnFromReview env rv _) as [[u|e] w']; reflexivity.
Qed.

(** [reviewCode] always returns a result. *)
Lemma reviewCode_returns (env : Env) (c : string) (lang : option string) (w : World) :
  exists r, fst (reviewCode env c lang w) = Returned r.
Proof.
  rewrite reviewCode_run.
  destruct (AI_run env _) as [rv|]; [|cbn; eauto].
  cbn zeta. destruct (learnFromReview env rv _) as [[u|e] w']; cbn; eauto.
Qed.

(** What a call that got a text from the inference service has written,
    whether it reports success or not. *)
Lemma reviewCode_answered (env : Env) (c : string) (lang : option string)
    (w : World) (rv : string) :
  AI_run env (review_prompt w c lang) = Some rv ->
  let w' := snd (reviewCode env c lang w) in
  let userLanguage := or_default lang (language (preferences (state w))) in
  reviewHistory (state w') =
    unshift_bounded
      {| id := randomUUID env; code := c; review := rv;
         timestamp := now_history env; accepted := false |}
      (reviewHistory (state w)) /\
  preferences (state w') = preferences (state w) /\
  code_snippets w' =
    Sql.insert_snippet c userLanguage rv (countIssues rv) (now_snippet env)
      (code_snippets w).
Proof.
  intros Hai. rewrite reviewCode_run, Hai. cbn zeta.
  pose proof (learnFromReview_frame env rv
    (snd (storeReview env c rv (or_default lang (language (preferences (state w)))) w)))
    as [Hs Hc].
  destruct (learnFromReview env rv _) as [[u|e] w']; cbn [snd] in *;
    rewrite Hs, Hc; now rewrite storeReview_run.
Qed.

(** A successful call got its text from the inference service. *)
Lemma reviewCode_success (env : Env) (c : string) (lang : option string)
    (w : World) (rv l : string) (ts : Z) :
  fst (reviewCode env c lang w) = Returned (ReviewOk rv l ts) ->
  AI_run env (review_prompt w c lang) = Some rv.
Proof.
  rewrite reviewCode_run.
  destruct (AI_run env _) as [rv'|]; [|discriminate].
  cbn zeta. destruct (learnFromReview env rv' _) as [[u|e] w']; cbn [fst];
    intros H; inversion H; reflexivity.
Qed.

(** ** The bounded history *)

Lemma unshift_bounded_firstn (r : ReviewRecord) (h : list ReviewRecord) :
  List.length h <= 10 -> unshift_bounded r h = firstn 10 (r :: h).
Proof.
  intros Hh. unfold unshift_bounded.
  destruct (Nat.ltb_spec 10 (List.length (r :: h))) as [Hlt|Hle].
  - rewrite removelast_firstn_len.
    cbn [List.length] in *. replace (Nat.pred (S (List.length h))) with 10 by lia.
    reflexivity.
  - symmetry. now apply firstn_all2.
Qed.

Lemma firstn_app_firstn {A} (n : nat) (a b : list A) :
  firstn n (a ++ firstn n b)%list = firstn n (a ++ b)%list.
Proof.
  rewrite !firstn_app, firstn_firstn. f_equal. f_equal. lia.
Qed.

Lemma review_all_history (calls : list ReviewCall) :
  forall w,
    List.length (reviewHistory (state w)) <= 10 ->
    forallb succeeded (fst (review_all calls w)) = true ->
    let made := created calls (fst (review_all calls w)) in
    reviewHistory (state (snd (review_all calls w)))
      = firstn 10 (rev made ++ reviewHistory (state w))%list /\
    List.length made = List.length calls.
Proof.
  induction calls as [|k rest IH]; intros w Hw Hok.
  - unfold created. cbn [review_all fst snd combine flat_map rev app].
    split; [|reflexivity]. symmetry. now apply firstn_all2.
  - cbn [review_all] in *.
    destruct (reviewCode (call_env k) (call_code k) (call_language k) w)
      as [r w1] eqn:Hrun.
    destruct (review_all rest w1) as [rs w2] eqn:Hrest.
    cbn [fst snd forallb] in *.
    apply andb_prop in Hok. destruct Hok as [Hr Hrs].
    destruct r as [[rv l ts|]|]; try discriminate.
    assert (Hai : AI_run (call_env k)
                    (review_prompt w (call_code k) (call_language k)) = Some rv).
    { apply (reviewCode_success _ _ _ _ rv l ts). now rewrite Hrun. }
    pose proof (reviewCode_answered _ _ _ _ _ Hai) as [Hh _].
    rewrite Hrun in Hh. cbn [snd] in Hh.
    rewrite unshift_bounded_firstn in Hh by exact Hw.
    assert (Hw1 : List.length (reviewHistory (state w1)) <= 10).
    { rewrite Hh, length_firstn. lia. }
    specialize (IH w1 Hw1). rewrite Hrest in IH. cbn [fst snd] in IH.
    destruct (IH Hrs) as [IHh IHl].
    unfold created in *. cbn [combine flat_map record_of fst snd].
    split.
    + rewrite IHh, Hh, firstn_app_firstn.
      cbn [app rev]. now rewrite <- app_assoc.
    + cbn [app List.length]. now rewrite IHl.
Qed.

(** C1.  From a state with an empty history, [N] consecutive successful
    [reviewCode] calls leave [min N 10] records: the records of the last
    ten calls, newest first, the records of the first [N - 10] calls being
    gone. *)
Theorem reviewHistory_bounded (calls : list ReviewCall) (w : World) :
  reviewHistory (state w) = [] ->
  forallb succeeded (fst (review_all calls w)) = true ->
  let made := created calls (fst (review_all calls w)) in
  let history := reviewHistory (state (snd (review_all calls w))) in
  List.length made = List.length calls /\
  history = rev (skipn (List.length calls - 10) made) /\
  List.length history = Nat.min (List.length calls) 10.
Proof.
  intros Hw Hok made history.
  destruct (review_all_history calls w) as [Hh Hl]; [rewrite Hw; cbn; lia | exact Hok |].
  fold made in Hh, Hl. fold history in Hh.
  rewrite Hw, app_nil_r, firstn_rev, Hl in Hh.
  repeat split; [exact Hl | exact Hh |].
  rewrite Hh, length_rev, length_skipn, Hl. lia.
Qed.

Lemma reviewHistory_bounded_witness :
  let made := created twelve_calls (fst (review_all twelve_calls initial_world)) in
  let history := reviewHistory (state (snd (review_all twelve_calls initial_world))) in
  List.length made = 12 /\
  history = rev (skipn 2 made) /\
  List.length history = 10.
Proof.
  apply (reviewHistory_bounded twelve_calls initial_world); reflexivity.
Defined.

(** ** The patterns of the prompt *)

Lemma insert_by_frequency_In (r x : Sql.PatternRow) (l : list Sql.PatternRow) :
  In x (Sql.insert_by_frequency r l) -> x = r \/ In x l.
Proof.
  induction l as [|y l IH]; cbn.
  - intros [<-|[]]. now left.
  - destruct (Sql.frequency y <=? Sql.frequency r)%Z; cbn.
    + intros [<-|H]; [now left | now right].
    + intros [<-|H]; [right; now left|].
      destruct (IH H) as [->|H']; [now left | right; now right].
Qed.

Lemma order_by_frequency_desc_In (x : Sql.PatternRow) (l : list Sql.PatternRow) :
  In x (Sql.order_by_frequency_desc l) -> In x l.
Proof.
  induction l as [|y l IH]; cbn; [tauto|].
  intros H. apply insert_by_frequency_In in H.
  destruct H as [->|H]; [now left | right; now apply IH].
Qed.

Lemma In_firstn {A} (n : nat) (x : A) (l : list A) :
  In x (firstn n l) -> In x l.
Proof.
  intros H. rewrite <- (firstn_skipn n l). apply in_or_app. now left.
Qed.

(** The query of lines 84-90 only returns rows of type [common_issue]. *)
Lemma recentPatterns_type (w : World) (r : Sql.PatternRow) :
  In r (recentPatterns w) -> Sql.pattern_type r = "common_issue".
Proof.
  unfold recentPatterns, Sql.select_top5. intros H.
  apply In_firstn, order_by_frequency_desc_In, filter_In in H.
  now apply String.eqb_eq.
Qed.

(** On storage prepared by hand, which no method of the agent produces:
    the query of [reviewCode] names the type [common_issue] where the one
    of [getStats] names [detected_issue].  With [detected_issue] rows in
    the table (written by [learnFromReview] on a table that has the index,
    or put there), [getStats] lists them and the prompt does not. *)
Example reviewCode_prompt_without_detected_issues :
  let first := reviewCode (answering scenario_text "r1" 1) "def f(): pass"
                 (Some "python") indexed_world in
  let w := snd first in
  fst first = Returned (ReviewOk scenario_text "python" 1) /\
  map (fun r => (Sql.pattern_type r, Sql.pattern r, Sql.frequency r))
      (Sql.rows (review_patterns w))
    = [("detected_issue", "Issue: missing docstring", 1%Z);
       ("detected_issue", "Issue: no return type annotation", 1%Z)] /\
  (exists s, fst (getStats w) = Returned s /\
     stats_commonIssues s = [("Issue: missing docstring", 1%Z);
                             ("Issue: no return type annotation", 1%Z)]) /\
  recentPatterns w = [] /\
  Text.contains "Common issues to check"
    (review_prompt w "def f(): pass" (Some "python")) = false /\
  Text.contains "Issue: missing docstring"
    (review_prompt w "def f(): pass" (Some "python")) = false /\
  recentPatterns world_with_detected_issue = [] /\
  Text.contains "Common issues to check"
    (review_prompt world_with_detected_issue "def f(): pass" (Some "python")) = false.
Proof.
  cbv zeta. repeat split; try (vm_compute; reflexivity).
  eexists. split; vm_compute; reflexivity.
Qed.

(** ** Learning *)

(** Without a UNIQUE index on [pattern] the first statement of the loop is
    rejected and nothing is written. *)
Lemma learnFromReview_rejected (env : Env) (rv : string) (w : World) :
  Sql.pattern_unique (review_patterns w) = false ->
  issuePatterns rv <> [] ->
  learnFromReview env rv w = (Thrown Sql.no_conflict_target, w).
Proof.
  intros Hu Hp. unfold learnFromReview.
  destruct (issuePatterns rv) as [|p l]; [contradiction|].
  cbn [for_of]. unfold bind, sql_patterns, Sql.upsert_detected_issue.
  now rewrite Hu.
Qed.

(** With the index, the statement is the upsert it is written to be. *)
Example learnFromReview_twice_indexed :
  let env := answering "" "" 7 in
  let once := snd (learnFromReview env "Issue: missing docstring." indexed_world) in
  let twice := snd (learnFromReview env "Issue: missing docstring." once) in
  map (fun r => (Sql.pattern r, Sql.frequency r)) (Sql.rows (review_patterns twice))
  = [("Issue: missing docstring", 2%Z)].
Proof. reflexivity. Qed.

(** C3.  On the table that [onStart] creates, which has no UNIQUE index on
    [pattern], learning the phrase "Issue: missing docstring" throws, the
    first time and the second time, and no row is stored: there is no
    record of frequency 1 after the first call and none of frequency 2
    after the second. *)
Theorem learnFromReview_twice_stores_nothing :
  let env := answering "" "" 7 in
  let once := learnFromReview env "Issue: missing docstring." initial_world in
  let twice := learnFromReview env "Issue: missing docstring." (snd once) in
  issuePatterns "Issue: missing docstring." = ["Issue: missing docstring"] /\
  fst once = Thrown Sql.no_conflict_target /\
  Sql.rows (review_patterns (snd once)) = [] /\
  fst twice = Thrown Sql.no_conflict_target /\
  Sql.rows (review_patterns (snd twice)) = [].
Proof. cbv zeta. repeat split; vm_compute; reflexivity. Qed.

(** ** Failure of a review *)

(** C4.  In a new agent, a review whose text has an [Issue:] sentence is
    not failure atomic: the inference call answers, [storeReview] inserts
    the snippet and puts the record in the history, then the upsert of
    [learnFromReview] is rejected (the defect of C3), the catch block
    answers, and [reviewCode] returns [success: false] with the snippet and
    the record written. *)
Theorem reviewCode_failure_after_writes :
  let run := reviewCode (answering scenario_text "r1" 1) "def f(): pass"
               (Some "python") initial_world in
  fst run = Returned (ReviewFailed "Failed to generate review" 1) /\
  Sql.snippets (code_snippets initial_world) = [] /\
  Sql.snippets (code_snippets (snd run))
    = [{| Sql.cs_id := 1; Sql.cs_code := "def f(): pass";
          Sql.cs_language := "python"; Sql.cs_review := scenario_text;
          Sql.issues_found := 2; Sql.cs_timestamp := 1; Sql.helpful := None |}] /\
  reviewHistory (state initial_world) = [] /\
  reviewHistory (state (snd run))
    = [{| id := "r1"; code := "def f(): pass"; review := scenario_text;
          timestamp := 1; accepted := false |}] /\
  snd run <> initial_world.
Proof.
  cbv zeta. repeat split; try (vm_compute; reflexivity).
  intros H. apply (f_equal (fun w => List.length (reviewHistory (state w)))) in H.
  vm_compute in H. discriminate.
Qed.

(** When the inference call fails, [reviewCode] returns
    [{ success: false, error, timestamp }] and the world is the one it
    started from: no snippet, no pattern and no history record has been
    written. *)
Lemma reviewCode_inference_failure (env : Env) (c : string)
    (lang : option string) (w : World) :
  AI_run env (review_prompt w c lang) = None ->
  reviewCode env c lang w = (Returned (failed_result env), w) /\
  success (failed_result env) = false.
Proof.
  intros Hai. rewrite reviewCode_run, Hai. now split.
Qed.

Lemma reviewCode_inference_failure_witness :
  reviewCode (failing "r1" 1) "def f(): pass" (Some "python") initial_world
    = (Returned (failed_result (failing "r1" 1)), initial_world) /\
  success (failed_result (failing "r1" 1)) = false.
Proof.
  apply (reviewCode_inference_failure (failing "r1" 1) "def f(): pass"
           (Some "python") initial_world).
  reflexivity.
Defined.

(** ** Feedback *)

Lemma findIndex_None {A} (p : A -> bool) (l : list A) :
  (forall x, In x l -> p x = false) -> findIndex p l = None.
Proof.
  induction l as [|x l IH]; intros H; cbn; [reflexivity|].
  rewrite (H x) by now left.
  rewrite IH; [reflexivity|]. intros y Hy. apply H. now right.
Qed.

Lemma provideFeedback_miss (now : Z) (reviewId : string)
    (helpful : bool) (comments : option string) (w : World) :
  ~ In reviewId (map id (reviewHistory (state w))) ->
  provideFeedback now reviewId helpful comments w = (Returned true, w).
Proof.
  intros Hnot. unfold provideFeedback, bind, this_state.
  rewrite findIndex_None; [reflexivity|].
  intros r Hr. apply String.eqb_neq. intros <-.
  apply Hnot. now apply in_map.
Qed.

(** C5.  [provideFeedback] with a [reviewId] that is not in the history
    returns [{ success: true }] and leaves the world as it is: history,
    preferences, [review_patterns] and [code_snippets]. *)
Theorem provideFeedback_unknown_review (now : Z) (reviewId : string)
    (helpful : bool) (comments : option string) (w : World) :
  ~ In reviewId (map id (reviewHistory (state w))) ->
  let run := provideFeedback now reviewId helpful comments w in
  fst run = Returned true /\
  snd run = w /\
  reviewHistory (state (snd run)) = reviewHistory (state w) /\
  preferences (state (snd run)) = preferences (state w) /\
  review_patterns (snd run) = review_patterns w /\
  code_snippets (snd run) = code_snippets w.
Proof.
  intros Hnot. cbv zeta. rewrite (provideFeedback_miss _ _ _ _ _ Hnot).
  now repeat split.
Qed.

Lemma provideFeedback_unknown_review_witness :
  let w := snd (review_all twelve_calls initial_world) in
  let run := provideFeedback 5 "r0" false (Some "too harsh") w in
  fst run = Returned true /\
  snd run = w /\
  reviewHistory (state (snd run)) = reviewHistory (state w) /\
  preferences (state (snd run)) = preferences (state w) /\
  review_patterns (snd run) = review_patterns w /\
  code_snippets (snd run) = code_snippets w.
Proof.
  apply (provideFeedback_unknown_review 5 "r0" false (Some "too harsh")
           (snd (review_all twelve_calls initial_world))).
  vm_compute. intuition discriminate.
Defined.

(** ** Preferences *)

(** C6.  [updatePreferences] returns the preferences it leaves in the
    state; each field is the supplied one when the argument has it and the
    old one otherwise, and nothing else changes: not the user id, the
    history or the pattern summary, nor the two tables.  With
    [{ strictness: "strict" }] only [strictness] changes. *)
Theorem updatePreferences_merges (p : PartialPreferences) (w : World) :
  let run := updatePreferences p w in
  let w' := snd run in
  let old := preferences (state w) in
  let new := preferences (state w') in
  fst run = Returned (true, new) /\
  language new = match language_opt p with Some v => v | None => language old end /\
  styleGuide new = match styleGuide_opt p with Some v => v | None => styleGuide old end /\
  strictness new = match strictness_opt p with Some v => v | None => strictness old end /\
  focusAreas new = match focusAreas_opt p with Some v => v | None => focusAreas old end /\
  userId (state w') = userId (state w) /\
  reviewHistory (state w') = reviewHistory (state w) /\
  patterns (state w') = patterns (state w) /\
  review_patterns w' = review_patterns w /\
  code_snippets w' = code_snippets w /\
  preferences (state (snd (updatePreferences
      {| language_opt := None; styleGuide_opt := None;
         strictness_opt := Some strict; focusAreas_opt := None |} w)))
  = {| language := language old; styleGuide := styleGuide old;
       strictness := strict; focusAreas := focusAreas old |}.
Proof. cbv zeta. repeat split. Qed.

(** ** Negative feedback *)

Lemma findIndex_Some {A} (p : A -> bool) (l : list A) :
  (exists x, In x l /\ p x = true) -> exists i, findIndex p l = Some i.
Proof.
  induction l as [|y l IH]; intros (x & Hin & Hp); [contradiction|].
  cbn. destruct (p y) eqn:E; [eauto|].
  destruct Hin as [->|Hin]; [congruence|].
  destruct IH as [i Hi]; [eauto|]. rewrite Hi. cbn. eauto.
Qed.

(** The assignment at the index that [findIndex] returns: one record of
    the searched kind gets its [accepted] field set. *)
Lemma set_accepted_found (p : ReviewRecord -> bool) (b : bool) (h : list ReviewRecord) :
  forall i, findIndex p h = Some i ->
    exists before r rest,
      h = (before ++ r :: rest)%list /\ p r = true /\
      set_accepted i b h = Some (before ++ with_accepted r b :: rest)%list.
Proof.
  induction h as [|x h IH]; intros i Hi; cbn in Hi; [discriminate|].
  destruct (p x) eqn:E.
  - inversion Hi. subst i. now exists [], x, h.
  - destruct (findIndex p h) as [j|] eqn:F; [|discriminate].
    inversion Hi. subst i.
    destruct (IH j eq_refl) as (before & r & rest & -> & Hp & Hs).
    exists (x :: before), r, rest. cbn. now rewrite Hs.
Qed.

Lemma same_review_refl (r : ReviewRecord) : same_review r r.
Proof. repeat split. Qed.

Lemma same_review_all (h : list ReviewRecord) : Forall2 same_review h h.
Proof. induction h; constructor; auto using same_review_refl. Qed.

Lemma same_review_accepted (before rest : list ReviewRecord) (r : ReviewRecord) (b : bool) :
  Forall2 same_review (before ++ r :: rest) (before ++ with_accepted r b :: rest).
Proof.
  apply Forall2_app; [apply same_review_all|].
  constructor; [repeat split | apply same_review_all].
Qed.

(** How [provideFeedback] runs when the review is in the history. *)
Lemma provideFeedback_found (now : Z) (reviewId : string) (helpful : bool)
    (comments : option string) (w : World) :
  In reviewId (map id (reviewHistory (state w))) ->
  exists before r rest,
    reviewHistory (state w) = (before ++ r :: rest)%list /\ id r = reviewId /\
    let w1 := {| state := with_history (state w)
                            (before ++ with_accepted r helpful :: rest)%list;
                 review_patterns := review_patterns w;
                 code_snippets := code_snippets w |} in
    provideFeedback now reviewId helpful comments w =
      match comments with
      | Some c =>
          if negb helpful && truthy comments then
            match Sql.insert_user_preference c now (review_patterns w) with
            | inl t => (Returned true,
                        {| state := state w1; review_patterns := t;
                           code_snippets := code_snippets w |})
            | inr e => (Thrown e, w1)
            end
          else (Returned true, w1)
      | None => (Returned true, w1)
      end.
Proof.
  intros Hin. apply in_map_iff in Hin. destruct Hin as (x & Hx & Hin).
  destruct (findIndex_Some (fun r => String.eqb (id r) reviewId)
              (reviewHistory (state w))) as [i Hi].
  { exists x. split; [exact Hin | now apply String.eqb_eq]. }
  destruct (set_accepted_found _ helpful _ _ Hi) as (before & r & rest & Hh & Hp & Hs).
  exists before, r, rest. split; [exact Hh|]. split; [now apply String.eqb_eq|].
  cbv zeta. unfold provideFeedback, bind, this_state. rewrite Hi, Hs.
  unfold setState, ret, sql_patterns. cbn [state review_patterns code_snippets].
  destruct comments as [c|]; [|reflexivity].
  destruct (negb helpful && truthy (Some c)); [|reflexivity].
  cbn [state review_patterns code_snippets].
  destruct (Sql.insert_user_preference c now (review_patterns w)); reflexivity.
Qed.

(** C7, as stated, fails: the insert sits inside the test that the review
    was found.  With a [reviewId] that is not in the history, negative
    feedback with comments inserts no row. *)
Lemma provideFeedback_negative_unknown_review :
  let run := provideFeedback 5 "r0" false (Some "too harsh") initial_world in
  fst run = Returned true /\
  Sql.rows (review_patterns (snd run)) = Sql.rows (review_patterns initial_world) /\
  ~ (exists r, In r (Sql.rows (review_patterns (snd run))) /\
               Sql.pattern_type r = "user_preference").
Proof.
  cbv zeta. repeat split. intros (r & Hin & _). exact Hin.
Qed.

(** C7, amended.  When the review is in the history, [helpful] is [false]
    and [comments] is not empty, [provideFeedback] appends one row of type
    [user_preference] with feedback "negative" to [review_patterns] (as
    [onStart] creates the table, without uniqueness on [pattern]); the
    same feedback given twice appends two rows with the same text. *)
Theorem provideFeedback_negative_inserts (now1 now2 : Z) (reviewId c : string)
    (w : World) :
  In reviewId (map id (reviewHistory (state w))) ->
  c <> "" ->
  Sql.pattern_unique (review_patterns w) = false ->
  let first := provideFeedback now1 reviewId false (Some c) w in
  let second := provideFeedback now2 reviewId false (Some c) (snd first) in
  let n := Sql.next_id (review_patterns w) in
  fst first = Returned true /\
  Sql.rows (review_patterns (snd first))
    = (Sql.rows (review_patterns w) ++ [negative_row n c now1])%list /\
  fst second = Returned true /\
  Sql.rows (review_patterns (snd second))
    = (Sql.rows (review_patterns w)
       ++ [negative_row n c now1; negative_row (n + 1) c now2])%list.
Proof.
  intros Hin Hc Hu.
  assert (Ht : truthy (Some c) = true).
  { cbn. now apply negb_true_iff, String.eqb_neq. }
  destruct (provideFeedback_found now1 reviewId false (Some c) w Hin)
    as (before & r & rest & Hh & Hid & Hrun).
  cbv zeta in Hrun. rewrite Ht in Hrun. cbn [negb andb] in Hrun.
  unfold Sql.insert_user_preference in Hrun. rewrite Hu in Hrun.
  cbn [andb] in Hrun.
  cbv zeta. rewrite Hrun. cbn [fst snd].
  set (w1 := {| state := _; review_patterns := _; code_snippets := _ |}).
  assert (Hin1 : In reviewId (map id (reviewHistory (state w1)))).
  { cbn. rewrite map_app. rewrite Hh, map_app in Hin.
    apply in_app_or in Hin. apply in_or_app.
    destruct Hin as [Hin|Hin]; [now left | right; exact Hin]. }
  destruct (provideFeedback_found now2 reviewId false (Some c) w1 Hin1)
    as (before' & r' & rest' & _ & _ & Hrun').
  cbv zeta in Hrun'. rewrite Ht in Hrun'. cbn [negb andb] in Hrun'.
  unfold Sql.insert_user_preference in Hrun'.
  replace (Sql.pattern_unique (review_patterns w1)) with false in Hrun'
    by (symmetry; exact Hu).
  cbn [andb] in Hrun'. rewrite Hrun'. cbn.
  repeat split. now rewrite <- app_assoc.
Qed.

Lemma provideFeedback_negative_inserts_witness :
  let w := snd (review_all twelve_calls initial_world) in
  let first := provideFeedback 20 "L" false (Some "too harsh") w in
  let second := provideFeedback 21 "L" false (Some "too harsh") (snd first) in
  fst first = Returned true /\
  Sql.rows (review_patterns (snd first)) = [negative_row 1 "too harsh" 20] /\
  fst second = Returned true /\
  Sql.rows (review_patterns (snd second))
    = [negative_row 1 "too harsh" 20; negative_row 2 "too harsh" 21].
Proof.
  apply (provideFeedback_negative_inserts 20 21 "L" "too harsh"
           (snd (review_all twelve_calls initial_world))).
  - vm_compute. tauto.
  - discriminate.
  - reflexivity.
Defined.

(** ** The issue count of a snippet *)

(** C8, as stated, fails where two occurrences overlap: the review text
    "issuerror" holds one occurrence of "issue" and one of "error", and the
    snippet of a successful call records one issue. *)
Lemma issuesFound_overlap :
  let run := reviewCode (answering "issuerror" "r1" 1) "pass" None initial_world in
  fst run = Returned (ReviewOk "issuerror" "python" 1) /\
  map Sql.issues_found (Sql.snippets (code_snippets (snd run))) = [1] /\
  occurrences_of "issue" "issuerror" = 1 /\
  occurrences_of "error" "issuerror" = 1 /\
  occurrences "issuerror" = 2 /\
  map Sql.issues_found (Sql.snippets (code_snippets (snd run)))
    <> [occurrences "issuerror"].
Proof. cbv zeta. repeat split. discriminate. Qed.

(** C8, amended.  A successful [reviewCode] call appends one snippet, whose
    [issues_found] is the number of matches of the keyword pattern in the
    review text: the case-insensitive occurrences of the keywords, less one
    for each occurrence of "issuerror", where "error" starts inside the
    match of "issue".  For the text of the scenario it is 2. *)
Theorem issuesFound_counts_matches (env : Env) (c : string) (lang : option string)
    (w : World) (rv l : string) (ts : Z) :
  fst (reviewCode env c lang w) = Returned (ReviewOk rv l ts) ->
  let w' := snd (reviewCode env c lang w) in
  (exists row,
     Sql.snippets (code_snippets w') = (Sql.snippets (code_snippets w) ++ [row])%list /\
     Sql.cs_review row = rv /\
     Sql.issues_found row = countIssues rv) /\
  countIssues rv + occurrences_of "issuerror" rv = occurrences rv /\
  countIssues scenario_text = 2.
Proof.
  intros Hok. apply reviewCode_success in Hok.
  destruct (reviewCode_answered env c lang w rv Hok) as (_ & _ & Hs).
  cbv zeta. rewrite Hs. split; [|split].
  - eexists. split; [reflexivity|]. now split.
  - apply countIssues_occurrences.
  - reflexivity.
Qed.

Lemma issuesFound_counts_matches_witness :
  let env := answering "Error: issue with the WARNING problem" "r1" 1 in
  let w' := snd (reviewCode env "pass" None initial_world) in
  (exists row,
     Sql.snippets (code_snippets w') = [row] /\
     Sql.cs_review row = "Error: issue with the WARNING problem" /\
     Sql.issues_found row = 4) /\
  4 + 0 = 4 /\
  countIssues scenario_text = 2.
Proof.
  apply (issuesFound_counts_matches
           (answering "Error: issue with the WARNING problem" "r1" 1)
           "pass" None initial_world
           "Error: issue with the WARNING problem" "python" 1).
  reflexivity.
Defined.

(** ** The life of a review record *)

Lemma unshift_bounded_cases (r : ReviewRecord) (h : list ReviewRecord) :
  (List.length h < 10 /\ unshift_bounded r h = r :: h) \/
  (10 <= List.length h /\ unshift_bounded r h = r :: removelast h).
Proof.
  unfold unshift_bounded. cbn [List.length].
  destruct (Nat.ltb_spec 10 (S (List.length h))) as [Hlt|Hle].
  - right. split; [lia|]. destruct h; [cbn in Hlt; lia | reflexivity].
  - left. split; [lia | reflexivity].
Qed.

(** C9, as stated, fails: the record that [reviewCode] creates has
    [accepted = false], one of the two values that feedback gives, and not
    a third, unset one. *)
Lemma reviewCode_record_accepted_false :
  let run := reviewCode (answering "Looks good" "r1" 1) "pass" None initial_world in
  fst run = Returned (ReviewOk "Looks good" "python" 1) /\
  reviewHistory (state (snd run))
    = [{| id := "r1"; code := "pass"; review := "Looks good";
          timestamp := 1; accepted := false |}] /\
  Forall (fun r => ~ (accepted r <> true /\ accepted r <> false))
         (reviewHistory (state (snd run))) /\
  reviewHistory (state (snd (provideFeedback 2 "r1" false None (snd run))))
    = reviewHistory (state (snd run)).
Proof.
  cbv zeta. repeat split.
  constructor; [|constructor]. intros [_ H]. now apply H.
Qed.

(** C9, amended.  Whatever the call and the world: [reviewCode] leaves the
    history or puts a record with [accepted = false] in front of it,
    dropping the last record when ten are held; [provideFeedback] changes
    at most the [accepted] field of one record with the given id, and every
    record keeps its id, code, review and timestamp; [updatePreferences]
    and [getStats] leave the history as it is. *)
Theorem reviewHistory_step (k : Call) (w : World) :
  history_step k (reviewHistory (state w)) (reviewHistory (state (after k w))).
Proof.
  destruct k as [env c lang|p|now reviewId helpful comments|]; cbn [after history_step].
  - destruct (AI_run env (review_prompt w c lang)) as [rv|] eqn:Hai.
    + right. destruct (reviewCode_answered env c lang w rv Hai) as (Hh & _).
      rewrite Hh. eexists. split; [|apply unshift_bounded_cases]. reflexivity.
    + left. now rewrite reviewCode_run, Hai.
  - reflexivity.
  - destruct (in_dec string_dec reviewId (map id (reviewHistory (state w))))
      as [Hin|Hnot].
    + destruct (provideFeedback_found now reviewId helpful comments w Hin)
        as (before & r & rest & Hh & Hid & Hrun).
      cbv zeta in Hrun.
      assert (Hw : reviewHistory (state (snd (provideFeedback now reviewId
                     helpful comments w)))
                   = (before ++ with_accepted r helpful :: rest)%list).
      { rewrite Hrun. destruct comments as [c|]; [|reflexivity].
        destruct (negb helpful && truthy (Some c)); [|reflexivity].
        destruct (Sql.insert_user_preference c now (review_patterns w));
          reflexivity. }
      rewrite Hw, Hh. split; [apply same_review_accepted|].
      right. now exists before, r, rest.
    + rewrite (provideFeedback_miss _ _ _ _ _ Hnot).
      split; [apply same_review_all | now left].
  - reflexivity.
Qed.

(** ** The texts that learning stores *)

Lemma kept_row_refl (t : Sql.PatternTable) (r : Sql.PatternRow) :
  In r (Sql.rows t) -> kept_row t r.
Proof. intros H. now exists r. Qed.

Lemma bump_same (p : string) (now : Z) (r : Sql.PatternRow) :
  Sql.rp_id (Sql.bump p now r) = Sql.rp_id r /\
  Sql.pattern_type (Sql.bump p now r) = Sql.pattern_type r /\
  Sql.pattern (Sql.bump p now r) = Sql.pattern r.
Proof. unfold Sql.bump. now destruct (String.eqb (Sql.pattern r) p). Qed.

Lemma accounted_bump (rv : string) (t0 : Sql.PatternTable) (p : string) (now : Z)
    (r : Sql.PatternRow) :
  kept_row t0 r \/ learned_row rv r ->
  kept_row t0 (Sql.bump p now r) \/ learned_row rv (Sql.bump p now r).
Proof.
  destruct (bump_same p now r) as (Hi & Ht & Hp).
  intros [(r0 & Hin & Hi0 & Ht0 & Hp0)|Hl].
  - left. exists r0. repeat split; congruence.
  - right. unfold learned_row in *. now rewrite Ht, Hp.
Qed.

Lemma accounted_upsert (rv : string) (t0 : Sql.PatternTable) (p : string) (now : Z)
    (t t' : Sql.PatternTable) :
  In p (issuePatterns rv) ->
  accounted rv t0 t ->
  Sql.upsert_detected_issue p now t = inl t' ->
  accounted rv t0 t'.
Proof.
  intros Hp Ht. unfold Sql.upsert_detected_issue.
  destruct (Sql.pattern_unique t); [|discriminate].
  destruct (Sql.has_pattern p t); intros H; inversion H; subst t'; clear H;
    unfold accounted in *; cbn [Sql.rows Sql.append_row].
  - apply Forall_map. eapply Forall_impl; [|exact Ht].
    intros r. apply accounted_bump.
  - apply Forall_app. split; [exact Ht|].
    constructor; [|constructor]. right.
    destruct (issuePatterns_marked rv p Hp) as [Hm Hd].
    now repeat split.
Qed.

Lemma accounted_for_of (rv : string) (t0 : Sql.PatternTable) (now : Z)
    (l : list string) :
  (forall p, In p l -> In p (issuePatterns rv)) ->
  forall w, accounted rv t0 (review_patterns w) ->
    accounted rv t0 (review_patterns
      (snd (for_of l (fun p => sql_patterns (Sql.upsert_detected_issue p now)) w))).
Proof.
  induction l as [|p l IH]; intros Hl w Hw; [exact Hw|].
  cbn [for_of]. unfold bind, sql_patterns.
  destruct (Sql.upsert_detected_issue p now (review_patterns w)) as [t|e] eqn:E;
    [|exact Hw].
  apply IH; [intros q Hq; apply Hl; now right|].
  cbn [review_patterns].
  apply (accounted_upsert rv t0 p now (review_patterns w) t);
    [apply Hl; now left | exact Hw | exact E].
Qed.

Lemma append_assoc (a b c : string) : (a ++ b) ++ c = a ++ b ++ c.
Proof. induction a as [|x a IH]; cbn; [reflexivity | now rewrite IH]. Qed.

(** C10.  The matches that [learnFromReview] binds to its statement start
    with "Issue:" and hold no period; whatever the table, every row it
    leaves was there before (same id, type and text) or is a
    [detected_issue] row whose text is such a match, marker included; and
    the prompt lists the texts of the rows it is given as they are stored,
    after "Common issues to check: " and separated by ", ". *)
Theorem learnFromReview_texts (env : Env) (rv : string) (w : World) :
  Forall (fun p => prefix "Issue:" p = true /\ Text.has_dot p = false)
         (issuePatterns rv) /\
  Forall (fun r => kept_row (review_patterns w) r \/ learned_row rv r)
         (Sql.rows (review_patterns (snd (learnFromReview env rv w)))) /\
  (forall st c lang r found,
     buildReviewPrompt st c lang (r :: found)
     = (prompt_head st lang ++ nl)
       ++ "Common issues to check: "
       ++ Text.join ", " (map Sql.pattern (r :: found))
       ++ prompt_tail c lang).
Proof.
  split; [|split].
  - apply Forall_forall. intros p Hp. now apply (issuePatterns_marked rv).
  - apply (accounted_for_of rv (review_patterns w)); [auto|].
    apply Forall_forall. intros r Hr. left. now apply kept_row_refl.
  - intros st c lang r found. unfold buildReviewPrompt, common_issues_clause.
    cbn [map]. now rewrite !append_assoc.
Qed.

(** ** What reaches the prompt *)

(** No method writes a row of type [common_issue]. *)
Lemma no_common_issue_after (k : Call) (w : World) :
  no_common_issue w -> no_common_issue (after k w).
Proof.
  intros Hw. destruct k as [env c lang|p|now reviewId helpful comments|];
    cbn [after]; try exact Hw.
  - rewrite reviewCode_run.
    destruct (AI_run env (review_prompt w c lang)) as [rv|]; [|exact Hw].
    cbv zeta.
    set (ws := snd (storeReview env c rv _ w)).
    assert (Ha : accounted rv (review_patterns w)
                   (review_patterns (snd (learnFromReview env rv ws)))).
    { apply accounted_for_of; [auto|].
      apply Forall_forall. intros r Hr. left. now apply kept_row_refl. }
    assert (Hn : no_common_issue (snd (learnFromReview env rv ws))).
    { unfold no_common_issue, accounted in *.
      rewrite Forall_forall in *. intros r Hr.
      destruct (Ha r Hr) as [(r0 & Hin & _ & Ht & _)|(Ht & _)].
      - rewrite <- Ht. now apply Hw.
      - rewrite Ht. discriminate. }
    destruct (learnFromReview env rv ws) as [[u|e] w']; exact Hn.
  - destruct (in_dec string_dec reviewId (map id (reviewHistory (state w))))
      as [Hin|Hnot].
    + destruct (provideFeedback_found now reviewId helpful comments w Hin)
        as (before & r & rest & _ & _ & Hrun).
      cbv zeta in Hrun. rewrite Hrun.
      destruct comments as [c|]; [|exact Hw].
      destruct (negb helpful && truthy (Some c)); [|exact Hw].
      unfold Sql.insert_user_preference.
      destruct (Sql.pattern_unique (review_patterns w)
                && Sql.has_pattern c (review_patterns w)); [exact Hw|].
      unfold no_common_issue. cbn [snd review_patterns Sql.rows Sql.append_row].
      apply Forall_app. split; [exact Hw|].
      constructor; [discriminate | constructor].
    + now rewrite (provideFeedback_miss _ _ _ _ _ Hnot).
Qed.

(** On such a store the query of [reviewCode] is empty and the prompt has
    no clause, whatever [detected_issue] rows there are. *)
Lemma review_prompt_without_clause (w : World) (c : string) (lang : option string) :
  no_common_issue w ->
  recentPatterns w = [] /\
  review_prompt w c lang
  = prompt_head (state w) (or_default lang (language (preferences (state w))))
    ++ prompt_tail c (or_default lang (language (preferences (state w)))).
Proof.
  intros Hw.
  assert (He : recentPatterns w = []).
  { unfold recentPatterns, Sql.select_top5.
    replace (filter _ (Sql.rows (review_patterns w))) with (@nil Sql.PatternRow);
      [reflexivity|].
    symmetry. unfold no_common_issue in Hw.
    induction (Sql.rows (review_patterns w)) as [|r l IH]; [reflexivity|].
    inversion Hw as [|? ? Hr Hl]. subst. cbn [filter].
    apply String.eqb_neq in Hr. rewrite Hr. now apply IH. }
  split; [exact He|].
  unfold review_prompt, buildReviewPrompt. now rewrite He.
Qed.

(** * Further properties *)

(** ** What each call does to the state *)

Lemma reviewCode_state (env : Env) (c : string) (lang : option string)
    (w : World) (rv : string) :
  AI_run env (review_prompt w c lang) = Some rv ->
  state (snd (reviewCode env c lang w)) =
    with_history (state w)
      (unshift_bounded
         {| id := randomUUID env; code := c; review := rv;
            timestamp := now_history env; accepted := false |}
         (reviewHistory (state w))).
Proof.
  intros Hai. rewrite reviewCode_run, Hai. cbn zeta.
  pose proof (learnFromReview_frame env rv
    (snd (storeReview env c rv (or_default lang (language (preferences (state w)))) w)))
    as [Hs _].
  destruct (learnFromReview env rv _) as [[u|e] w']; cbn [snd] in *;
    rewrite Hs; now rewrite storeReview_run.
Qed.

Lemma reviewCode_unanswered (env : Env) (c : string) (lang : option string) (w : World) :
  AI_run env (review_prompt w c lang) = None ->
  snd (reviewCode env c lang w) = w.
Proof. intros Hai. now rewrite reviewCode_run, Hai. Qed.

(** [findIndex] returns the first index: no record before it has the id. *)
Lemma set_accepted_first (p : ReviewRecord -> bool) (b : bool) (h : list ReviewRecord) :
  forall i, findIndex p h = Some i ->
    exists before r rest,
      h = (before ++ r :: rest)%list /\ p r = true /\
      Forall (fun x => p x = false) before /\ List.length before = i /\
      set_accepted i b h = Some (before ++ with_accepted r b :: rest)%list.
Proof.
  induction h as [|x h IH]; intros i Hi; cbn in Hi; [discriminate|].
  destruct (p x) eqn:E.
  - inversion Hi. subst i. exists [], x, h.
    split; [reflexivity|]. split; [exact E|]. split; [constructor|].
    split; reflexivity.
  - destruct (findIndex p h) as [j|] eqn:F; [|discriminate].
    inversion Hi. subst i.
    destruct (IH j eq_refl) as (before & r & rest & -> & Hp & Hb & Hl & Hs).
    exists (x :: before), r, rest. cbn. rewrite Hs, Hl.
    split; [reflexivity|]. split; [exact Hp|]. split; [now constructor|].
    split; reflexivity.
Qed.

Lemma findIndex_first {A} (p : A -> bool) (before : list A) (r : A) (rest : list A) :
  Forall (fun x => p x = false) before -> p r = true ->
  findIndex p (before ++ r :: rest) = Some (List.length before).
Proof.
  induction before as [|x before IH]; intros Hb Hr; cbn.
  - now rewrite Hr.
  - inversion Hb as [|? ? Hx Hb']. subst. rewrite Hx, (IH Hb' Hr). reflexivity.
Qed.

(** The state that [provideFeedback] leaves, whether its insert is made,
    refused or not tried. *)
Lemma provideFeedback_state (now : Z) (reviewId : string) (helpful : bool)
    (comments : option string) (w : World) :
  let w' := snd (provideFeedback now reviewId helpful comments w) in
  code_snippets w' = code_snippets w /\
  (w' = w \/
   exists before r rest,
     reviewHistory (state w) = (before ++ r :: rest)%list /\
     id r = reviewId /\
     Forall (fun x => String.eqb (id x) reviewId = false) before /\
     state w' = with_history (state w)
                  (before ++ with_accepted r helpful :: rest)%list).
Proof.
  cbv zeta. unfold provideFeedback, bind, this_state.
  destruct (findIndex (fun r => String.eqb (id r) reviewId) (reviewHistory (state w)))
    as [i|] eqn:Hi; [|split; [reflexivity | now left]].
  destruct (set_accepted_first _ helpful _ _ Hi)
    as (before & r & rest & Hh & Hp & Hb & _ & Hs).
  rewrite Hs. unfold setState, ret, sql_patterns.
  cbn [state review_patterns code_snippets].
  assert (Hid : id r = reviewId) by now apply String.eqb_eq.
  destruct comments as [c|].
  - destruct (negb helpful && truthy (Some c)).
    + cbn [state review_patterns code_snippets].
      destruct (Sql.insert_user_preference c now (review_patterns w));
        (split; [reflexivity | right; now exists before, r, rest]).
    + split; [reflexivity | right; now exists before, r, rest].
  - split; [reflexivity | right; now exists before, r, rest].
Qed.

Lemma length_unshift_bounded (r : ReviewRecord) (h : list ReviewRecord) :
  List.length h <= 10 ->
  List.length (unshift_bounded r h) = Nat.min (S (List.length h)) 10.
Proof.
  intros Hh. rewrite unshift_bounded_firstn by exact Hh.
  rewrite length_firstn. cbn [List.length]. lia.
Qed.

Lemma length_marked (before rest : list ReviewRecord) (r : ReviewRecord) (b : bool) :
  List.length (before ++ with_accepted r b :: rest)
  = List.length (before ++ r :: rest).
Proof. now rewrite !length_app. Qed.

(** The length of the history after one call. *)
Lemma history_length_after (k : Call) (w : World) :
  let n := List.length (reviewHistory (state w)) in
  let n' := List.length (reviewHistory (state (after k w))) in
  n <= 10 ->
  (n' = n /\ code_snippets (after k w) = code_snippets w) \/
  (is_review k = true /\ n' = Nat.min (S n) 10 /\
   List.length (Sql.snippets (code_snippets (after k w)))
   = S (List.length (Sql.snippets (code_snippets w)))).
Proof.
  cbv zeta. intros Hn.
  destruct k as [env c lang|p|now reviewId helpful comments|]; cbn [after is_review].
  - destruct (AI_run env (review_prompt w c lang)) as [rv|] eqn:Hai.
    + right. destruct (reviewCode_answered env c lang w rv Hai) as (Hh & _ & Hs).
      rewrite Hh, Hs, length_unshift_bounded by exact Hn.
      unfold Sql.insert_snippet. cbn [Sql.snippets]. rewrite length_app.
      cbn [List.length]. repeat split. lia.
    + left. now rewrite (reviewCode_unanswered _ _ _ _ Hai).
  - now left.
  - left. destruct (provideFeedback_state now reviewId helpful comments w)
      as [Hc [Hw|(before & r & rest & Hh & _ & _ & Hs)]].
    + now rewrite Hw.
    + split; [|exact Hc].
      rewrite Hs, Hh. cbn [reviewHistory with_history]. apply length_marked.
  - now left.
Qed.

Lemma snippets_after_not_review (k : Call) (w : World) :
  is_review k = false -> code_snippets (after k w) = code_snippets w.
Proof.
  destruct k as [env c lang|p|now reviewId helpful comments|]; cbn [after is_review];
    intros Hk; try discriminate; try reflexivity.
  apply provideFeedback_state.
Qed.

(** X1.  Whatever calls are made, in whatever order and with whatever
    result, a history of at most ten records stays one: the bound does not
    depend on the reviews succeeding. *)
Theorem reviewHistory_bound_kept (ks : list Call) (w : World) :
  List.length (reviewHistory (state w)) <= 10 ->
  List.length (reviewHistory (state (after_all ks w))) <= 10.
Proof.
  revert w. induction ks as [|k ks IH]; intros w Hw; [exact Hw|].
  cbn [after_all]. apply IH.
  destruct (history_length_after k w Hw) as [[-> _]|(_ & -> & _)]; lia.
Qed.

Lemma reviewHistory_bound_kept_witness :
  List.length (reviewHistory (state (after_all mixed_calls initial_world))) <= 10.
Proof.
  apply (reviewHistory_bound_kept mixed_calls initial_world).
  cbn. lia.
Defined.

(** ** What [getStats] counts *)

Lemma getStats_run (w : World) :
  exists s, getStats w = (Returned s, w) /\
    totalReviews s = List.length (Sql.snippets (code_snippets w)) /\
    recentReviews s = List.length (reviewHistory (state w)) /\
    stats_preferences s = preferences (state w) /\
    stats_commonIssues s
    = map (fun r => (Sql.pattern r, Sql.frequency r))
          (Sql.select_top5 "detected_issue" (review_patterns w)).
Proof. eexists. split; [reflexivity|]. now repeat split. Qed.

Lemma recent_of_total_after (k : Call) (w : World) :
  List.length (reviewHistory (state w))
    = Nat.min (List.length (Sql.snippets (code_snippets w))) 10 ->
  List.length (reviewHistory (state (after k w)))
    = Nat.min (List.length (Sql.snippets (code_snippets (after k w)))) 10.
Proof.
  intros Hw.
  destruct (history_length_after k w) as [[Hn Hc]|(_ & Hn & Hs)]; [lia | |].
  - now rewrite Hn, Hc.
  - rewrite Hn, Hs, Hw. lia.
Qed.

(** X2.  In a new agent, after any calls, the history holds as many
    records as there are snippets, up to ten: [getStats] reports
    [recentReviews = min(totalReviews, 10)]. *)
Theorem recentReviews_of_totalReviews (ks : list Call) :
  let w := after_all ks initial_world in
  exists s, getStats w = (Returned s, w) /\
    recentReviews s = Nat.min (totalReviews s) 10.
Proof.
  cbv zeta.
  assert (H : forall w,
    List.length (reviewHistory (state w))
      = Nat.min (List.length (Sql.snippets (code_snippets w))) 10 ->
    List.length (reviewHistory (state (after_all ks w)))
      = Nat.min (List.length (Sql.snippets (code_snippets (after_all ks w)))) 10).
  { induction ks as [|k ks IH]; intros w Hw; [exact Hw|].
    cbn [after_all]. apply IH. now apply recent_of_total_after. }
  destruct (getStats_run (after_all ks initial_world)) as (s & Hrun & Ht & Hr & _).
  exists s. split; [exact Hrun|]. rewrite Ht, Hr. now apply H.
Qed.

(** ** The snippets *)

Lemma snippets_after (k : Call) (w : World) :
  exists added,
    Sql.snippets (code_snippets (after k w))
      = (Sql.snippets (code_snippets w) ++ added)%list /\
    Forall sound_snippet added /\
    List.length added <= (if is_review k then 1 else 0).
Proof.
  destruct (is_review k) eqn:Hk.
  - destruct k as [env c lang| | |]; try discriminate. cbn [after].
    destruct (AI_run env (review_prompt w c lang)) as [rv|] eqn:Hai.
    + destruct (reviewCode_answered env c lang w rv Hai) as (_ & _ & Hs).
      rewrite Hs. eexists. split; [reflexivity|].
      split; [|cbn; lia]. constructor; [now split | constructor].
    + rewrite (reviewCode_unanswered _ _ _ _ Hai).
      exists []. rewrite app_nil_r. repeat split; [constructor | cbn; lia].
  - rewrite (snippets_after_not_review k w Hk).
    exists []. rewrite app_nil_r. repeat split; [constructor | cbn; lia].
Qed.

(** X3.  The snippets only grow: whatever the calls, the rows held before
    are still there, unchanged and in place, followed by at most one new
    row for each [reviewCode] call; every new row has [helpful] unset (no
    method writes that column) and the issue count of its own review. *)
Theorem snippets_append_only (ks : list Call) (w : World) :
  exists added,
    Sql.snippets (code_snippets (after_all ks w))
      = (Sql.snippets (code_snippets w) ++ added)%list /\
    Forall (fun s => Sql.helpful s = None /\
                     Sql.issues_found s = countIssues (Sql.cs_review s)) added /\
    List.length added <= List.length (filter is_review ks).
Proof.
  revert w. induction ks as [|k ks IH]; intros w.
  - exists []. cbn. rewrite app_nil_r. repeat split; [constructor | lia].
  - cbn [after_all].
    destruct (snippets_after k w) as (a1 & H1 & F1 & L1).
    destruct (IH (after k w)) as (a2 & H2 & F2 & L2).
    exists (a1 ++ a2)%list. rewrite H2, H1, <- app_assoc.
    split; [reflexivity|]. split; [apply Forall_app; now split|].
    rewrite length_app. cbn [filter].
    destruct (is_review k); cbn [List.length]; lia.
Qed.


(** ** History and snippets *)

Lemma In_removelast {A} (x : A) (l : list A) : In x (removelast l) -> In x l.
Proof. rewrite removelast_firstn_len. apply In_firstn. Qed.

Lemma unshift_bounded_In (r x : ReviewRecord) (h : list ReviewRecord) :
  In x (unshift_bounded r h) -> x = r \/ In x h.
Proof.
  unfold unshift_bounded.
  destruct (10 <? List.length (r :: h))%nat; intros H;
    [apply In_removelast in H|]; destruct H as [<-|H]; auto.
Qed.

Lemma persisted_after (k : Call) (w : World) :
  persisted w -> persisted (after k w).
Proof.
  unfold persisted. intros Hw.
  destruct k as [env c lang|p|now reviewId helpful comments|]; cbn [after];
    try exact Hw.
  - destruct (AI_run env (review_prompt w c lang)) as [rv|] eqn:Hai;
      [|now rewrite (reviewCode_unanswered _ _ _ _ Hai)].
    destruct (reviewCode_answered env c lang w rv Hai) as (Hh & _ & Hs).
    rewrite Hh, Hs. rewrite Forall_forall in *. intros x Hx.
    unfold Sql.insert_snippet. cbn [Sql.snippets].
    apply unshift_bounded_In in Hx. destruct Hx as [->|Hx].
    + eexists. split; [apply in_or_app; right; now left|]. now split.
    + destruct (Hw x Hx) as (s & Hin & Hc & Hr).
      exists s. split; [apply in_or_app; now left | now split].
  - destruct (provideFeedback_state now reviewId helpful comments w)
      as [Hc [Hsame|(before & r & rest & Hh & _ & _ & Hs)]].
    + now rewrite Hsame.
    + rewrite Hs, Hc. cbn [reviewHistory with_history].
      rewrite Hh in Hw. apply Forall_app in Hw. destruct Hw as [Hb Hr].
      inversion Hr as [|? ? Hr1 Hr2]. subst.
      apply Forall_app. split; [exact Hb|]. constructor; [exact Hr1 | exact Hr2].
Qed.

(** X4.  In a new agent, after any calls, every record of the history has
    a row in [code_snippets] with the same code and the same review text:
    the history never shows a review that was not persisted. *)
Theorem reviewHistory_persisted (ks : list Call) :
  Forall (fun r =>
            exists s, In s (Sql.snippets (code_snippets (after_all ks initial_world))) /\
                      Sql.cs_code s = code r /\ Sql.cs_review s = review r)
         (reviewHistory (state (after_all ks initial_world))).
Proof.
  assert (H : forall w, persisted w -> persisted (after_all ks w)).
  { induction ks as [|k ks IH]; intros w Hw; [exact Hw|].
    cbn [after_all]. apply IH. now apply persisted_after. }
  apply (H initial_world). constructor.
Qed.

(** ** The parts of the state that stay *)

Lemma state_frame_after (k : Call) (w : World) :
  userId (state (after k w)) = userId (state w) /\
  patterns (state (after k w)) = patterns (state w) /\
  preferences (state (after k w))
  = match k with
    | CallUpdatePreferences p => spread (preferences (state w)) p
    | _ => preferences (state w)
    end.
Proof.
  destruct k as [env c lang|p|now reviewId helpful comments|]; cbn [after];
    try (now repeat split).
  - destruct (AI_run env (review_prompt w c lang)) as [rv|] eqn:Hai.
    + now rewrite (reviewCode_state _ _ _ _ _ Hai).
    + now rewrite (reviewCode_unanswered _ _ _ _ Hai).
  - destruct (provideFeedback_state now reviewId helpful comments w)
      as [_ [Hsame|(before & r & rest & _ & _ & _ & Hs)]].
    + now rewrite Hsame.
    + now rewrite Hs.
Qed.

(** X5.  No call writes the user id or the pattern summary of the state
    ([commonIssues], [ignoredRules], [customRules]): after any calls they
    are what they were.  The preferences are written by
    [updatePreferences] only. *)
Theorem state_summary_never_written (ks : list Call) (k : Call) (w : World) :
  userId (state (after_all ks w)) = userId (state w) /\
  patterns (state (after_all ks w)) = patterns (state w) /\
  preferences (state (after k w))
  = match k with
    | CallUpdatePreferences p => spread (preferences (state w)) p
    | _ => preferences (state w)
    end.
Proof.
  split; [|split]; [| |apply state_frame_after].
  - revert w. induction ks as [|k' ks IH]; intros w; [reflexivity|].
    cbn [after_all]. rewrite IH. apply state_frame_after.
  - revert w. induction ks as [|k' ks IH]; intros w; [reflexivity|].
    cbn [after_all]. rewrite IH. apply state_frame_after.
Qed.

(** ** The statistics *)

Lemma insert_by_frequency_perm (r : Sql.PatternRow) (l : list Sql.PatternRow) :
  Permutation (Sql.insert_by_frequency r l) (r :: l).
Proof.
  induction l as [|x l IH]; cbn; [reflexivity|].
  destruct (Sql.frequency x <=? Sql.frequency r)%Z; [reflexivity|].
  rewrite IH. apply perm_swap.
Qed.

Lemma order_by_frequency_desc_perm (l : list Sql.PatternRow) :
  Permutation (Sql.order_by_frequency_desc l) l.
Proof.
  induction l as [|x l IH]; cbn; [reflexivity|].
  rewrite insert_by_frequency_perm. now constructor.
Qed.

Lemma insert_by_frequency_sorted (r : Sql.PatternRow) (l : list Sql.PatternRow) :
  StronglySorted by_frequency_desc l ->
  StronglySorted by_frequency_desc (Sql.insert_by_frequency r l).
Proof.
  induction l as [|x l IH]; intros Hl; cbn.
  - repeat constructor.
  - inversion Hl as [|? ? Hs Hx]. subst.
    destruct (Z.leb_spec (Sql.frequency x) (Sql.frequency r)) as [Hle|Hlt].
    + constructor; [exact Hl|]. constructor; [exact Hle|].
      eapply Forall_impl; [|exact Hx]. unfold by_frequency_desc. intros y Hy. lia.
    + constructor; [now apply IH|].
      apply Forall_forall. intros y Hy.
      apply insert_by_frequency_In in Hy. destruct Hy as [->|Hy].
      * unfold by_frequency_desc. lia.
      * rewrite Forall_forall in Hx. now apply Hx.
Qed.

Lemma order_by_frequency_desc_sorted (l : list Sql.PatternRow) :
  StronglySorted by_frequency_desc (Sql.order_by_frequency_desc l).
Proof.
  induction l as [|x l IH]; cbn; [constructor|].
  now apply insert_by_frequency_sorted.
Qed.

(** X6.  [getStats] changes nothing.  It reports the number of snippets,
    the length of the history, the preferences, and at most five patterns:
    [detected_issue] rows in order of decreasing frequency, none of the
    [detected_issue] rows left out having a higher frequency than a
    listed one. *)
Theorem getStats_top_five (w : World) :
  exists s rest,
    getStats w = (Returned s, w) /\
    totalReviews s = List.length (Sql.snippets (code_snippets w)) /\
    recentReviews s = List.length (reviewHistory (state w)) /\
    stats_preferences s = preferences (state w) /\
    let top := Sql.select_top5 "detected_issue" (review_patterns w) in
    stats_commonIssues s = map (fun r => (Sql.pattern r, Sql.frequency r)) top /\
    List.length top <= 5 /\
    Forall (fun r => Sql.pattern_type r = "detected_issue") top /\
    Permutation (detected w) (top ++ rest) /\
    StronglySorted by_frequency_desc (top ++ rest).
Proof.
  destruct (getStats_run w) as (s & Hrun & Ht & Hr & Hp & Hc).
  exists s, (skipn 5 (Sql.order_by_frequency_desc (detected w))).
  cbv zeta. unfold Sql.select_top5. fold (detected w).
  repeat (split; [assumption|]).
  split; [rewrite length_firstn; lia|].
  split.
  - apply Forall_forall. intros r Hin.
    apply In_firstn, order_by_frequency_desc_In, filter_In in Hin.
    now apply String.eqb_eq.
  - rewrite firstn_skipn. split.
    + symmetry. apply order_by_frequency_desc_perm.
    + apply order_by_frequency_desc_sorted.
Qed.

(** ** When a review succeeds *)

Lemma for_of_indexed (now : Z) (l : list string) :
  forall w, Sql.pattern_unique (review_patterns w) = true ->
    exists w', for_of l (fun p => sql_patterns (Sql.upsert_detected_issue p now)) w
               = (Returned tt, w') /\
               Sql.pattern_unique (review_patterns w') = true.
Proof.
  induction l as [|p l IH]; intros w Hw; cbn [for_of].
  - now exists w.
  - unfold bind, sql_patterns, Sql.upsert_detected_issue. rewrite Hw.
    destruct (Sql.has_pattern p (review_patterns w)); apply IH;
      cbn [review_patterns Sql.pattern_unique Sql.append_row];
      (reflexivity || exact Hw).
Qed.

Lemma learnFromReview_outcome (env : Env) (rv : string) (w : World) :
  match fst (learnFromReview env rv w) with
  | Returned _ => learns w rv = true
  | Thrown _ => learns w rv = false
  end.
Proof.
  unfold learns.
  destruct (Sql.pattern_unique (review_patterns w)) eqn:Hu.
  - destruct (for_of_indexed (CURRENT_TIMESTAMP env) (issuePatterns rv) w Hu)
      as (w' & Hrun & _).
    unfold learnFromReview. now rewrite Hrun.
  - cbn [orb]. destruct (issuePatterns rv) as [|p l] eqn:Hp.
    + unfold learnFromReview. now rewrite Hp.
    + rewrite learnFromReview_rejected; [reflexivity | exact Hu | now rewrite Hp].
Qed.

(** X7.  [reviewCode] reports success exactly when the inference service
    answered and the loop of [learnFromReview] ran to its end on the text:
    when [review_patterns] has a UNIQUE index on [pattern], or the text
    holds no [Issue:] sentence.  On the table that [onStart] creates, a
    review whose text has such a sentence is reported as failed. *)
Theorem reviewCode_succeeds_when (env : Env) (c : string) (lang : option string)
    (w : World) :
  succeeded (fst (reviewCode env c lang w))
  = match AI_run env (review_prompt w c lang) with
    | Some rv => learns w rv
    | None => false
    end.
Proof.
  rewrite reviewCode_run.
  destruct (AI_run env (review_prompt w c lang)) as [rv|]; [|reflexivity].
  cbv zeta.
  pose proof (learnFromReview_outcome env rv
    (snd (storeReview env c rv (or_default lang (language (preferences (state w)))) w)))
    as H.
  replace (learns (snd (storeReview env c rv _ w)) rv) with (learns w rv) in H
    by reflexivity.
  destruct (learnFromReview env rv _) as [[u|e] w']; cbn [fst] in *; now rewrite H.
Qed.

(** ** Feedback and the prompt *)

Lemma review_prompt_depends (w1 w2 : World) (c : string) (lang : option string) :
  preferences (state w1) = preferences (state w2) ->
  recentPatterns w1 = recentPatterns w2 ->
  review_prompt w1 c lang = review_prompt w2 c lang.
Proof.
  intros Hp Hr. unfold review_prompt, buildReviewPrompt, prompt_head.
  now rewrite Hp, Hr.
Qed.

(** The table that [provideFeedback] leaves. *)
Lemma provideFeedback_patterns (now : Z) (reviewId : string) (helpful : bool)
    (comments : option string) (w : World) :
  let w' := snd (provideFeedback now reviewId helpful comments w) in
  review_patterns w' = review_patterns w \/
  exists c, comments = Some c /\ negb helpful && truthy comments = true /\
    review_patterns w'
    = Sql.append_row (negative_row (Sql.next_id (review_patterns w)) c now)
        (review_patterns w).
Proof.
  cbv zeta. unfold provideFeedback, bind, this_state.
  destruct (findIndex (fun r => String.eqb (id r) reviewId) (reviewHistory (state w)))
    as [i|]; [|now left].
  destruct (set_accepted i helpful (reviewHistory (state w))) as [h'|]; [|now left].
  unfold setState, ret, sql_patterns. cbn [state review_patterns code_snippets].
  destruct comments as [c|]; [|now left].
  destruct (negb helpful && truthy (Some c)) eqn:Hn; [|now left].
  cbn [state review_patterns code_snippets].
  unfold Sql.insert_user_preference.
  destruct (Sql.pattern_unique (review_patterns w)
            && Sql.has_pattern c (review_patterns w)); [now left|].
  right. exists c. now repeat split.
Qed.

(** X8.  Feedback never reaches the prompt: whatever [provideFeedback] is
    given and whatever the store, the prompt of the next review is the one
    that would have been sent without the feedback. *)
Theorem provideFeedback_keeps_prompt (now : Z) (reviewId : string) (helpful : bool)
    (comments : option string) (w : World) (c : string) (lang : option string) :
  review_prompt (snd (provideFeedback now reviewId helpful comments w)) c lang
  = review_prompt w c lang.
Proof.
  apply review_prompt_depends.
  - apply (state_frame_after (CallFeedback now reviewId helpful comments) w).
  - unfold recentPatterns.
    destruct (provideFeedback_patterns now reviewId helpful comments w)
      as [->|(x & _ & _ & ->)]; [reflexivity|].
    unfold Sql.select_top5, Sql.append_row. cbn [Sql.rows].
    rewrite filter_app. cbn. now rewrite app_nil_r.
Qed.

(** X12.  Feedback that is positive, or has no comment or an empty one, is
    not recorded anywhere but in the [accepted] field: the call returns
    [{ success: true }] and both tables are as they were. *)
Theorem provideFeedback_without_insert (now : Z) (reviewId : string)
    (helpful : bool) (comments : option string) (w : World) :
  negb helpful && truthy comments = false ->
  let run := provideFeedback now reviewId helpful comments w in
  fst run = Returned true /\
  review_patterns (snd run) = review_patterns w /\
  code_snippets (snd run) = code_snippets w.
Proof.
  intros Hn. cbv zeta.
  split; [|split].
  - unfold provideFeedback, bind, this_state.
    destruct (findIndex _ _) as [i|] eqn:Hi; [|reflexivity].
    destruct (set_accepted_first _ helpful _ _ Hi)
      as (before & r & rest & _ & _ & _ & _ & ->).
    unfold setState, ret.
    destruct comments as [c|]; [|reflexivity]. now rewrite Hn.
  - destruct (provideFeedback_patterns now reviewId helpful comments w)
      as [H|(x & _ & Ht & _)]; [exact H | congruence].
  - apply provideFeedback_state.
Qed.

Lemma provideFeedback_without_insert_witness :
  let w := after_all mixed_calls initial_world in
  let run := provideFeedback 40 "K" true (Some "very helpful") w in
  fst run = Returned true /\
  review_patterns (snd run) = review_patterns w /\
  code_snippets (snd run) = code_snippets w.
Proof.
  apply (provideFeedback_without_insert 40 "K" true (Some "very helpful")
           (after_all mixed_calls initial_world)).
  reflexivity.
Defined.

(** ** Feedback given twice *)

Lemma mark_cons (reviewId : string) (b : bool) (x : ReviewRecord)
    (h : list ReviewRecord) :
  mark reviewId b (x :: h)
  = if String.eqb (id x) reviewId then with_accepted x b :: h
    else x :: mark reviewId b h.
Proof.
  unfold mark. cbn [findIndex].
  destruct (String.eqb (id x) reviewId); [reflexivity|].
  destruct (findIndex _ h) as [i|]; cbn [option_map set_accepted]; [|reflexivity].
  now destruct (set_accepted i b h).
Qed.

Lemma mark_mark (reviewId : string) (b1 b2 : bool) (h : list ReviewRecord) :
  mark reviewId b2 (mark reviewId b1 h) = mark reviewId b2 h.
Proof.
  induction h as [|x h IH]; [reflexivity|].
  rewrite (mark_cons reviewId b1), (mark_cons reviewId b2 x).
  destruct (String.eqb (id x) reviewId) eqn:E; rewrite mark_cons.
  - cbn [id with_accepted]. now rewrite E.
  - now rewrite E, IH.
Qed.

Lemma provideFeedback_history (now : Z) (reviewId : string) (helpful : bool)
    (comments : option string) (w : World) :
  reviewHistory (state (snd (provideFeedback now reviewId helpful comments w)))
  = mark reviewId helpful (reviewHistory (state w)).
Proof.
  unfold provideFeedback, mark, bind, this_state.
  destruct (findIndex _ _) as [i|]; [|reflexivity].
  destruct (set_accepted i helpful (reviewHistory (state w))) as [h'|];
    [|reflexivity].
  unfold setState, ret, sql_patterns.
  destruct comments as [c|]; [|reflexivity].
  destruct (negb helpful && truthy (Some c)); [|reflexivity].
  cbn [state review_patterns code_snippets].
  now destruct (Sql.insert_user_preference c now (review_patterns w)).
Qed.

(** X11.  On the history, the last feedback on a review wins and repeating
    it changes nothing: two [provideFeedback] calls on the same [reviewId]
    leave the history that the second call alone would leave, whatever the
    comments.  When several records share the id, the first one is the one
    marked, both times. *)
Theorem provideFeedback_last_wins (now1 now2 : Z) (reviewId : string)
    (b1 b2 : bool) (c1 c2 : option string) (w : World) :
  let w1 := snd (provideFeedback now1 reviewId b1 c1 w) in
  reviewHistory (state (snd (provideFeedback now2 reviewId b2 c2 w1)))
  = reviewHistory (state (snd (provideFeedback now2 reviewId b2 c2 w))) /\
  reviewHistory (state (snd (provideFeedback now2 reviewId b1 c2 w1)))
  = reviewHistory (state w1).
Proof.
  cbv zeta. rewrite !provideFeedback_history. split; [apply mark_mark|].
  rewrite mark_mark.  reflexivity.
Qed.

(** ** Preferences, again *)

(** X10.  Two [updatePreferences] calls leave the world of one call with
    the keys of the second over those of the first; the same call twice is
    the call once; and a call without keys changes nothing. *)
Theorem updatePreferences_composes (p q : PartialPreferences) (w : World) :
  snd (updatePreferences q (snd (updatePreferences p w)))
    = snd (updatePreferences (overlay p q) w) /\
  snd (updatePreferences p (snd (updatePreferences p w)))
    = snd (updatePreferences p w) /\
  snd (updatePreferences no_keys w) = w.
Proof.
  destruct p as [pl ps pst pf], q as [ql qs qst qf].
  destruct w as [[u [l s st f] h pt] rp cs].
  repeat split.
  - destruct ql, qs, qst, qf; reflexivity.
  - destruct pl, ps, pst, pf; reflexivity.
Qed.

(** ** The language of a review *)

(** X9.  An empty [language] argument is the same as none: the review is
    made for the language of the preferences.  A successful call returns
    the language it used, the argument when it is not empty and the
    preference otherwise, and stores it with the snippet. *)
Theorem reviewCode_language (env : Env) (c : string) (lang : option string)
    (w : World) (rv l : string) (ts : Z) :
  fst (reviewCode env c lang w) = Returned (ReviewOk rv l ts) ->
  l = match lang with
      | Some x => if String.eqb x "" then language (preferences (state w)) else x
      | None => language (preferences (state w))
      end /\
  (exists row,
     Sql.snippets (code_snippets (snd (reviewCode env c lang w)))
       = (Sql.snippets (code_snippets w) ++ [row])%list /\
     Sql.cs_language row = l) /\
  reviewCode env c (Some "") w = reviewCode env c None w.
Proof.
  intros Hok. pose proof (reviewCode_success _ _ _ _ _ _ _ Hok) as Hai.
  destruct (reviewCode_answered env c lang w rv Hai) as (_ & _ & Hs).
  assert (Hl : l = or_default lang (language (preferences (state w)))).
  { revert Hok. rewrite reviewCode_run, Hai. cbv zeta.
    destruct (learnFromReview env rv _) as [[u|e] w']; cbn [fst];
      intros H; inversion H; reflexivity. }
  split; [exact Hl|]. split; [|reflexivity].
  rewrite Hs. eexists. split; [reflexivity|]. cbn. now rewrite Hl.
Qed.

Lemma reviewCode_language_witness :
  let run := reviewCode (answering "Looks good" "r1" 1) "fn main() {}"
               (Some "rust") initial_world in
  "rust" = "rust" /\
  (exists row,
     Sql.snippets (code_snippets (snd run)) = [row] /\
     Sql.cs_language row = "rust") /\
  reviewCode (answering "Looks good" "r1" 1) "fn main() {}" (Some "") initial_world
  = reviewCode (answering "Looks good" "r1" 1) "fn main() {}" None initial_world.
Proof.
  apply (reviewCode_language (answering "Looks good" "r1" 1) "fn main() {}"
           (Some "rust") initial_world "Looks good" "rust" 1).
  reflexivity.
Defined.

(** ** Sentences and matches *)

Lemma match_all_skip (match_here : string -> option nat) (a b : string) :
  Text.match_all match_here (a ++ b) (String.length a)
  = Text.match_all match_here b 0.
Proof. induction a as [|c a IH]; [reflexivity | exact IH]. Qed.

Lemma until_dot_sentence (body rest : string) :
  Text.has_dot body = false ->
  Text.until_dot (body ++ String "." rest) = body.
Proof.
  induction body as [|c body IH]; cbn; [reflexivity|].
  destruct (Ascii.eqb c "."); [discriminate|].
  cbn. intros H. now rewrite IH.
Qed.

Lemma until_dot_whole (body : string) :
  Text.has_dot body = false -> Text.until_dot body = body.
Proof.
  induction body as [|c body IH]; cbn; [reflexivity|].
  destruct (Ascii.eqb c "."); [discriminate|].
  cbn. intros H. now rewrite IH.
Qed.

Lemma substring_whole (a b : string) :
  substring 0 (String.length a) (a ++ b) = a.
Proof.
  induction a as [|c a IH]; cbn; [now destruct b | now rewrite IH].
Qed.

Lemma length_append (a b : string) :
  String.length (a ++ b) = String.length a + String.length b.
Proof. induction a as [|c a IH]; cbn; [reflexivity | now rewrite IH]. Qed.

(** The first match of a text that starts with a sentence. *)
Lemma match_all_sentence (body tail : string) :
  body <> "" ->
  Text.until_dot (body ++ tail) = body ->
  Text.match_all Text.issue_here ("Issue:" ++ body ++ tail) 0
  = ("Issue:" ++ body) :: Text.match_all Text.issue_here tail 0.
Proof.
  intros Hb Hu.
  change ("Issue:" ++ body ++ tail)
    with (String "I" ("ssue:" ++ body ++ tail)).
  cbn [Text.match_all].
  assert (Hh : Text.issue_here (String "I" ("ssue:" ++ body ++ tail))
               = Some (6 + String.length body)).
  { unfold Text.issue_here.
    change (Text.after_prefix "Issue:" (String "I" ("ssue:" ++ body ++ tail)))
      with (Some (body ++ tail)).
    cbv beta iota. rewrite Hu. destruct body as [|c body]; [contradiction | reflexivity]. }
  rewrite Hh. f_equal.
  - change (String "I" ("ssue:" ++ body ++ tail)) with ("Issue:" ++ body ++ tail).
    rewrite (substring_after "Issue:"). f_equal. apply substring_whole.
  - replace (6 + String.length body - 1) with (String.length ("ssue:" ++ body))
      by (rewrite length_append; cbn; lia).
    rewrite <- (match_all_skip Text.issue_here ("ssue:" ++ body) tail).
    now rewrite append_assoc.
Qed.

(** X13.  Sentences are extracted one by one: a text that starts with
    "Issue:", a non-empty phrase without period and a period yields the
    marker and the phrase, then the matches of the rest; a text that ends
    with the phrase, without period, yields it too. *)
Theorem issuePatterns_sentence (body rest : string) :
  body <> "" ->
  Text.has_dot body = false ->
  issuePatterns ("Issue:" ++ body ++ "." ++ rest)
    = ("Issue:" ++ body) :: issuePatterns rest /\
  issuePatterns ("Issue:" ++ body) = ["Issue:" ++ body].
Proof.
  intros Hb Hd. rewrite !issuePatterns_match_all. split.
  - rewrite match_all_sentence; [|exact Hb | now apply until_dot_sentence].
    reflexivity.
  - pose proof (match_all_sentence body "" Hb) as H.
    replace (body ++ "") with body in H
      by (clear; induction body as [|c b IH]; cbn; [reflexivity | now rewrite <- IH]).
    now rewrite H by now apply until_dot_whole.
Qed.

Lemma issuePatterns_sentence_witness :
  issuePatterns ("Issue:" ++ " unused import" ++ "." ++ " Issue: shadowed name. Done.")
    = ("Issue:" ++ " unused import")
      :: issuePatterns " Issue: shadowed name. Done." /\
  issuePatterns ("Issue:" ++ " unused import") = ["Issue:" ++ " unused import"].
Proof.
  apply (issuePatterns_sentence " unused import" " Issue: shadowed name. Done.").
  - discriminate.
  - reflexivity.
Defined.

(** ** Matches are parts of the text *)

Lemma match_all_suffix (match_here : string -> option nat) (s : string) :
  forall skip m, In m (Text.match_all match_here s skip) ->
    exists before s' len,
      s = before ++ s' /\ match_here s' = Some len /\ m = substring 0 len s'.
Proof.
  induction s as [|c t IH]; intros skip m Hin; cbn in Hin; [contradiction|].
  assert (Hrest : forall n, In m (Text.match_all match_here t n) ->
            exists before s' len,
              String c t = before ++ s' /\ match_here s' = Some len /\
              m = substring 0 len s').
  { intros n Hn. destruct (IH n m Hn) as (before & s' & len & -> & Hm & Hs).
    now exists (String c before), s', len. }
  destruct skip as [|n]; [|eauto].
  destruct (match_here (String c t)) as [len|] eqn:E; [|eauto].
  destruct Hin as [<-|Hin]; [|eauto].
  now exists "", (String c t), len.
Qed.

Lemma prefix_append (a b : string) : prefix a (a ++ b) = true.
Proof.
  apply prefix_correct. apply substring_whole.
Qed.

Lemma contains_prefix (p s : string) : prefix p s = true -> Text.contains p s = true.
Proof. intros H. destruct s; cbn [Text.contains]; now rewrite H. Qed.

Lemma contains_append (p before s : string) :
  Text.contains p s = true -> Text.contains p (before ++ s) = true.
Proof.
  intros H. induction before as [|c before IH]; [exact H|].
  cbn [append Text.contains]. rewrite IH. apply orb_true_r.
Qed.

Lemma until_dot_prefix (s : string) : exists rest, s = Text.until_dot s ++ rest.
Proof.
  induction s as [|c s [rest IH]]; [now exists ""|].
  cbn. destruct (Ascii.eqb c "."); [now exists (String c s)|].
  exists rest. cbn. now rewrite <- IH.
Qed.

(** X14.  Every extracted pattern is a part of the review text, as it
    stands there: nothing is trimmed, changed in case or put together. *)
Theorem issuePatterns_in_text (rv : string) :
  Forall (fun p => Text.contains p rv = true) (issuePatterns rv).
Proof.
  apply Forall_forall. intros p Hin.
  rewrite issuePatterns_match_all in Hin.
  apply match_all_suffix in Hin. destruct Hin as (before & s' & len & -> & Hm & ->).
  apply contains_append, contains_prefix.
  unfold Text.issue_here in Hm.
  destruct (Text.after_prefix "Issue:" s') as [rest|] eqn:E; [|discriminate].
  apply after_prefix_app in E. subst s'.
  destruct (String.length (Text.until_dot rest)) as [|n] eqn:L; [discriminate|].
  apply (f_equal (fun o => match o with Some x => x | None => 0 end)) in Hm.
  subst len. rewrite (substring_after "Issue:" (S n) rest), <- L, substring_until_dot.
  destruct (until_dot_prefix rest) as [tail Ht].
  rewrite Ht at 2. rewrite <- append_assoc. apply prefix_append.
Qed.

(** ** Bounds on the issue count *)

Lemma ci_prefix_length (k : string) :
  forall s, Text.ci_prefix k s = true -> String.length k <= String.length s.
Proof.
  induction k as [|a k IH]; intros s H; [cbn; lia|].
  apply ci_prefix_cons in H. destruct H as (c & t & -> & _ & H).
  cbn. apply IH in H. lia.
Qed.

Lemma keyword_here_length (s : string) (len : nat) :
  Text.keyword_here s = Some len -> 5 <= len /\ len <= String.length s.
Proof.
  unfold Text.keyword_here.
  destruct (find (fun k => Text.ci_prefix k s) Text.keywords) as [k|] eqn:F;
    [|discriminate].
  apply find_some in F. destruct F as [Hin Hk].
  cbn [option_map]. intros H. inversion H. subst len. split.
  - unfold Text.keywords in Hin. cbn [In] in Hin.
    repeat (destruct Hin as [<-|Hin]; [cbn; lia|]). contradiction.
  - now apply ci_prefix_length.
Qed.

Lemma match_all_keywords_length (s : string) :
  forall n, 5 * List.length (Text.match_all Text.keyword_here s n)
            <= String.length s - n.
Proof.
  induction s as [|c t IH]; intros n; [cbn; lia|].
  cbn [Text.match_all]. destruct n as [|m].
  - destruct (Text.keyword_here (String c t)) as [len|] eqn:K.
    + apply keyword_here_length in K. cbn [String.length] in K.
      specialize (IH (len - 1)). cbn [List.length String.length]. lia.
    + specialize (IH 0). cbn [String.length]. lia.
  - specialize (IH m). cbn [String.length]. lia.
Qed.

(** X15.  The issue count is at most a fifth of the length of the review
    text: a match takes at least five characters and no character is in
    two matches.  The empty text counts no issue. *)
Theorem countIssues_at_most (rv : string) :
  5 * countIssues rv <= String.length rv /\ countIssues "" = 0.
Proof.
  split; [|reflexivity].
  rewrite countIssues_match_all.
  pose proof (match_all_keywords_length rv 0). lia.
Qed.

(** ** Letter case *)

Lemma to_lower_idem (c : ascii) : Text.to_lower (Text.to_lower c) = Text.to_lower c.
Proof.
  destruct c as [b0 b1 b2 b3 b4 b5 b6 b7].
  destruct b0, b1, b2, b3, b4, b5, b6, b7; reflexivity.
Qed.

Lemma ci_prefix_lowercase (k : string) :
  forall s, Text.ci_prefix k (Text.lowercase s) = Text.ci_prefix k s.
Proof.
  induction k as [|a k IH]; intros s; [reflexivity|].
  destruct s as [|c t]; [reflexivity|].
  cbn [Text.lowercase]. rewrite !ci_prefix_String, to_lower_idem, IH. reflexivity.
Qed.

Lemma keyword_here_lowercase (s : string) :
  Text.keyword_here (Text.lowercase s) = Text.keyword_here s.
Proof.
  unfold Text.keyword_here, Text.keywords. cbn [find].
  now rewrite !ci_prefix_lowercase.
Qed.

Lemma match_all_lowercase (s : string) :
  forall n, List.length (Text.match_all Text.keyword_here (Text.lowercase s) n)
            = List.length (Text.match_all Text.keyword_here s n).
Proof.
  induction s as [|c t IH]; intros n; [reflexivity|].
  cbn [Text.lowercase Text.match_all]. destruct n as [|m]; [|apply IH].
  change (String (Text.to_lower c) (Text.lowercase t))
    with (Text.lowercase (String c t)).
  rewrite keyword_here_lowercase.
  destruct (Text.keyword_here (String c t)); cbn [List.length]; now rewrite IH.
Qed.

(** X16.  The issue count ignores the case of ASCII letters: two review
    texts that are equal once put in lower case have the same count. *)
Theorem countIssues_ignores_case (rv1 rv2 : string) :
  Text.lowercase rv1 = Text.lowercase rv2 ->
  countIssues rv1 = countIssues rv2.
Proof.
  intros H. rewrite !countIssues_match_all.
  rewrite <- (match_all_lowercase rv1), <- (match_all_lowercase rv2).
  now rewrite H.
Qed.

Lemma countIssues_ignores_case_witness :
  countIssues "An ERROR and a Warning: Issue #1" = countIssues "an error and a warning: issue #1".
Proof.
  apply countIssues_ignores_case. reflexivity.
Defined.

(** ** Patterns and the issue count *)

Lemma issue_here_keyword (s : string) (len : nat) :
  Text.issue_here s = Some len -> Text.ci_prefix "issue" s = true.
Proof.
  unfold Text.issue_here.
  destruct (Text.after_prefix "Issue:" s) as [rest|] eqn:E; [|discriminate].
  apply after_prefix_app in E. subst s. reflexivity.
Qed.

Lemma occurrences_of_cons (k : string) (c : ascii) (t : string) :
  occurrences_of k (String c t)
  = (if Text.ci_prefix k (String c t) then 1 else 0) + occurrences_of k t.
Proof. reflexivity. Qed.

Lemma match_all_issues_bound (s : string) :
  forall n, List.length (Text.match_all Text.issue_here s n)
            <= occurrences_of "issue" s.
Proof.
  induction s as [|c t IH]; intros n; [cbn; lia|].
  rewrite occurrences_of_cons. cbn [Text.match_all].
  destruct n as [|m]; [|specialize (IH m); lia].
  destruct (Text.issue_here (String c t)) as [len|] eqn:E.
  - rewrite (issue_here_keyword _ _ E). specialize (IH (len - 1)).
    cbn [List.length]. lia.
  - specialize (IH 0). lia.
Qed.

(** No occurrence of "issue" starts inside a match of a keyword. *)
Lemma issue_not_inside (c : ascii) (t : string) (len : nat) :
  Text.keyword_here (String c t) = Some len ->
  occurrences_within "issue" (len - 1) t = 0.
Proof.
  ci_norm.
  by_first_letter c.
  all: try discriminate.
  all: match goal with
       | |- option_map _ (if Text.ci_prefix ?k ?t then _ else _) = _ -> _ =>
           let H := fresh "H" in
           destruct (Text.ci_prefix k t) eqn:H; [|discriminate];
           ci_split H
       end.
  all: intros Hlen;
       apply (f_equal (fun o => match o with Some x => x | None => 0 end)) in Hlen;
       cbn in Hlen; subst len.
  all: cbn [occurrences_within Nat.sub]; rewrite ?ci_prefix_String;
       repeat match goal with
              | E : _ = Text.to_lower ?c |- _ => try rewrite <- E; clear E
              end;
       ci_eval; reflexivity.
Qed.

Lemma match_all_counts_issues (s : string) :
  forall n, occurrences_of "issue" s
            <= List.length (Text.match_all Text.keyword_here s n)
               + occurrences_within "issue" n s.
Proof.
  induction s as [|c t IH]; intros n; [destruct n; cbn; lia|].
  rewrite occurrences_of_cons. cbn [Text.match_all].
  destruct n as [|m].
  - cbn [occurrences_within].
    destruct (Text.keyword_here (String c t)) as [len|] eqn:K.
    + specialize (IH (len - 1)). rewrite (issue_not_inside c t len K) in IH.
      cbn [List.length]. destruct (Text.ci_prefix "issue" (String c t)); lia.
    + assert (Text.ci_prefix "issue" (String c t) = false) as ->.
      { revert K. unfold Text.keyword_here, Text.keywords. cbn [find].
        now destruct (Text.ci_prefix "issue" (String c t)). }
      specialize (IH 0). destruct t; cbn [occurrences_within] in IH; lia.
  - cbn [occurrences_within]. specialize (IH m). lia.
Qed.

(** X17.  Every extracted pattern is also counted as an issue: the issue
    count of a text is at least the number of its [Issue:] patterns. *)
Theorem issuePatterns_counted (rv : string) :
  List.length (issuePatterns rv) <= countIssues rv.
Proof.
  rewrite issuePatterns_match_all, countIssues_match_all.
  pose proof (match_all_issues_bound rv 0) as Hb.
  pose proof (match_all_counts_issues rv 0) as H.
  replace (occurrences_within "issue" 0 rv) with 0 in H by now destruct rv.
  lia.
Qed.

(** ** The handlers of a connection *)

Lemma provideFeedback_outcome (now : Z) (reviewId : string) (helpful : bool)
    (comments : option string) (w : World) :
  fst (provideFeedback now reviewId helpful comments w) = Returned true \/
  (Sql.pattern_unique (review_patterns w) = true /\
   exists e, fst (provideFeedback now reviewId helpful comments w) = Thrown e).
Proof.
  unfold provideFeedback, bind, this_state.
  destruct (findIndex _ _) as [i|] eqn:Hi; [|now left].
  destruct (set_accepted_first _ helpful _ _ Hi)
    as (before & r & rest & _ & _ & _ & _ & ->).
  unfold setState, ret, sql_patterns. cbn [state review_patterns code_snippets].
  destruct comments as [c|]; [|now left].
  destruct (negb helpful && truthy (Some c)); [|now left].
  cbn [state review_patterns code_snippets].
  unfold Sql.insert_user_preference.
  destruct (Sql.pattern_unique (review_patterns w)) eqn:Hu; [|now left].
  destruct (Sql.has_pattern c (review_patterns w)); [|now left].
  right. split; [reflexivity|]. cbn. eauto.
Qed.

Lemma updatePreferences_run (p : PartialPreferences) (w : World) :
  updatePreferences p w
  = (Returned (true, spread (preferences (state w)) p),
     after (CallUpdatePreferences p) w).
Proof. reflexivity. Qed.

Lemma onMessage_run (env : Env) (message : Data + string) (s : Session) :
  exists m,
    onMessage env message s
    = (Returned tt,
       {| world := world_after env message (world s);
          outbox := (outbox s ++ [m])%list |}) /\
    reply_to env message (world s) m.
Proof.
  unfold onMessage, catching, and_then, JSON_parse, world_after, reply_to, call_of.
  destruct message as [data|e]; [|eexists; split; reflexivity].
  destruct (String.eqb (data_type data) "review").
  { unfold call at 1. cbn [after].
    destruct (reviewCode env (data_code data) (data_language data) (world s))
      as [[r|err] w']; eexists; split; reflexivity. }
  destruct (String.eqb (data_type data) "update-preferences").
  { unfold call at 1. cbn [after].
    destruct (updatePreferences (data_preferences data) (world s))
      as [[r|err] w']; eexists; split; reflexivity. }
  destruct (String.eqb (data_type data) "feedback").
  { unfold call at 1. cbn [after].
    destruct (provideFeedback (CURRENT_TIMESTAMP env) (data_reviewId data)
                (data_helpful data) (data_comments data) (world s))
      as [[r|err] w']; eexists; split; reflexivity. }
  destruct (String.eqb (data_type data) "get-stats").
  { unfold call at 1. cbn [after].
    destruct (getStats (world s)) as [[r|err] w']; eexists; split; reflexivity. }
  eexists. split; reflexivity.
Qed.

(** X19.  For a message whose fields have the types that the methods
    declare, or a text that does not parse: [onMessage] does not throw and
    sends one message.  Text that does not parse is answered with "Failed
    to process message" and the error, a type that is not one of the four
    with "Unknown command", and both leave the agent as it is.  A message
    of a known type leaves the world that its method leaves; it is answered
    with the result of the method under the tag of the method when the
    method returns, and with "Failed to process message" and the error
    when it throws. *)
Theorem onMessage_replies (env : Env) (message : Data + string) (s : Session) :
  exists m,
    onMessage env message s
    = (Returned tt,
       {| world := world_after env message (world s);
          outbox := (outbox s ++ [m])%list |}) /\
    reply_to env message (world s) m.
Proof. apply onMessage_run. Qed.

Lemma handle_run (e : Event) (s : Session) :
  exists sent,
    handle e s = (Returned tt,
                  {| world := after_all (calls_of [e]) (world s);
                     outbox := (outbox s ++ sent)%list |}) /\
    List.length sent = (if answered e then 1 else 0).
Proof.
  destruct e as [|env message|]; cbn [handle answered].
  - exists [stats_message
              {| totalReviews := List.length (Sql.snippets (code_snippets (world s)));
                 stats_commonIssues :=
                   map (fun r => (Sql.pattern r, Sql.frequency r))
                       (Sql.select_top5 "detected_issue" (review_patterns (world s)));
                 stats_preferences := preferences (state (world s));
                 recentReviews := List.length (reviewHistory (state (world s))) |}].
    split; reflexivity.
  - destruct (onMessage_run env message s) as (m & Hrun & _).
    exists [m]. split; [|reflexivity]. rewrite Hrun. f_equal. f_equal.
    unfold world_after, calls_of. cbn [flat_map].
    destruct message as [data|err]; [|reflexivity].
    destruct (call_of env data); reflexivity.
  - exists []. destruct s as [w o]. cbn. rewrite app_nil_r. split; reflexivity.
Qed.

Lemma after_all_app (ks1 ks2 : list Call) (w : World) :
  after_all (ks1 ++ ks2) w = after_all ks2 (after_all ks1 w).
Proof.
  revert w. induction ks1 as [|k ks1 IH]; intros w; [reflexivity|].
  cbn [after_all app]. apply IH.
Qed.

Lemma calls_of_cons (e : Event) (es : list Event) :
  calls_of (e :: es) = (calls_of [e] ++ calls_of es)%list.
Proof. unfold calls_of. cbn [flat_map]. now rewrite app_nil_r. Qed.

(** X20.  A session is the calls of its messages: no handler throws,
    every connection and every message is answered with one message and a
    close with none, and the agent is left as by the calls that the
    messages of a known type name, made directly in the same order;
    connecting, closing, messages that do not parse and messages of an
    unknown type leave it alone. *)
Theorem session_is_calls (es : list Event) (s : Session) :
  world (session es s) = after_all (calls_of es) (world s) /\
  List.length (outbox (session es s))
    = List.length (outbox s) + List.length (filter answered es) /\
  (forall e s0, fst (handle e s0) = Returned tt).
Proof.
  split; [|split].
  - revert s. induction es as [|e es IH]; intros s; [reflexivity|].
    cbn [session]. rewrite IH.
    destruct (handle_run e s) as (sent & Hrun & _). rewrite Hrun.
    cbn [snd world]. now rewrite (calls_of_cons e es), after_all_app.
  - revert s. induction es as [|e es IH]; intros s; [cbn; lia|].
    cbn [session]. rewrite IH.
    destruct (handle_run e s) as (sent & Hrun & Hlen). rewrite Hrun.
    cbn [snd outbox filter]. rewrite length_app, Hlen.
    destruct (answered e); cbn [List.length]; lia.
  - intros e s0. destruct (handle_run e s0) as (sent & Hrun & _).
    now rewrite Hrun.
Qed.

(** ** What a new agent learns *)

Lemma learnFromReview_unindexed (env : Env) (rv : string) (w : World) :
  Sql.pattern_unique (review_patterns w) = false ->
  snd (learnFromReview env rv w) = w.
Proof.
  intros Hu. destruct (issuePatterns rv) as [|p l] eqn:Hp.
  - unfold learnFromReview. now rewrite Hp.
  - rewrite learnFromReview_rejected; [reflexivity | exact Hu | now rewrite Hp].
Qed.

Lemma reviewCode_patterns_unindexed (env : Env) (c : string) (lang : option string)
    (w : World) :
  Sql.pattern_unique (review_patterns w) = false ->
  review_patterns (snd (reviewCode env c lang w)) = review_patterns w.
Proof.
  intros Hu. rewrite reviewCode_run.
  destruct (AI_run env (review_prompt w c lang)) as [rv|]; [|reflexivity].
  cbv zeta.
  pose proof (learnFromReview_unindexed env rv
    (snd (storeReview env c rv (or_default lang (language (preferences (state w)))) w))
    Hu) as H.
  destruct (learnFromReview env rv _) as [[u|e] w']; cbn [snd] in *; now subst w'.
Qed.

Lemma only_feedback_after (k : Call) (w : World) :
  only_feedback (review_patterns w) -> only_feedback (review_patterns (after k w)).
Proof.
  intros [Hu Hr].
  destruct k as [env c lang|p|now reviewId helpful comments|]; cbn [after];
    try (now split).
  - now rewrite (reviewCode_patterns_unindexed _ _ _ _ Hu).
  - destruct (provideFeedback_patterns now reviewId helpful comments w)
      as [->|(x & _ & _ & ->)]; [now split|].
    split; [exact Hu|]. cbn [Sql.rows Sql.append_row].
    apply Forall_app. split; [exact Hr|].
    constructor; [now repeat split | constructor].
Qed.

Lemma only_feedback_no_common_issue (w : World) :
  only_feedback (review_patterns w) -> no_common_issue w.
Proof.
  intros [_ Hr]. unfold no_common_issue.
  eapply Forall_impl; [|exact Hr].
  intros r (Ht & _). rewrite Ht. discriminate.
Qed.

(** X21.  A new agent learns nothing: after any calls, [review_patterns]
    holds only rows of negative feedback ([user_preference], "negative",
    frequency 1), [getStats] lists no common issue, and the prompt of a
    review is the template for the current preferences, the code and the
    language, without a clause of known issues. *)
Theorem new_agent_learns_nothing (ks : list Call) (c : string) (lang : option string) :
  let w := after_all ks initial_world in
  let l := or_default lang (language (preferences (state w))) in
  Forall (fun r => Sql.pattern_type r = "user_preference" /\
                   Sql.user_feedback r = Some "negative" /\
                   Sql.frequency r = 1%Z)
         (Sql.rows (review_patterns w)) /\
  (exists s, getStats w = (Returned s, w) /\ stats_commonIssues s = []) /\
  review_prompt w c lang = prompt_head (state w) l ++ prompt_tail c l.
Proof.
  cbv zeta.
  assert (H : forall w, only_feedback (review_patterns w) ->
                        only_feedback (review_patterns (after_all ks w))).
  { induction ks as [|k ks IH]; intros w Hw; [exact Hw|].
    cbn [after_all]. apply IH. now apply only_feedback_after. }
  specialize (H initial_world). destruct H as [Hu Hr]; [split; [reflexivity|constructor]|].
  split; [exact Hr|]. split.
  - eexists. split; [reflexivity|]. cbn [stats_commonIssues].
    unfold Sql.select_top5.
    replace (filter _ (Sql.rows (review_patterns (after_all ks initial_world))))
      with (@nil Sql.PatternRow); [reflexivity|].
    symmetry. induction Hr as [|r rows (Ht & _) _ IH]; [reflexivity|].
    cbn [filter]. now rewrite Ht, IH.
  - apply review_prompt_without_clause, only_feedback_no_common_issue. now split.
Qed.

(** ** The patterns of the prompt, from a new agent *)




(** ** Failure of a review, with the index *)

(** On a table that has the UNIQUE index on [pattern] the loop of
    [learnFromReview] runs to its end, and a review that returns
    [success: false] has written nothing: the writes of C4 come with the
    rejected upsert. *)
Lemma reviewCode_failure_atomic_with_index (env : Env) (c : string)
    (lang : option string) (w : World) :
  Sql.pattern_unique (review_patterns w) = true ->
  succeeded (fst (reviewCode env c lang w)) = false ->
  snd (reviewCode env c lang w) = w.
Proof.
  intros Hu. rewrite reviewCode_run.
  destruct (AI_run env (review_prompt w c lang)) as [rv|]; [|reflexivity].
  cbv zeta.
  pose proof (learnFromReview_outcome env rv
    (snd (storeReview env c rv (or_default lang (language (preferences (state w)))) w)))
    as H.
  replace (learns (snd (storeReview env c rv _ w)) rv) with true in H
    by (unfold learns; rewrite storeReview_run; cbn [snd review_patterns];
        now rewrite Hu).
  destruct (learnFromReview env rv _) as [[u|e] w']; cbn [fst snd succeeded success] in *;
    discriminate.
Qed.
